(** * Attendance bot: geofence validator and check-in conversation

    A shallow embedding of [app.py].  Python [float]s are read as real numbers
    (the module computes with [math.sin], [math.cos], [math.atan2] and
    [math.sqrt], which have no executable counterpart; rounding is not
    modelled), Python [int]s as [Z], the module-level dictionaries
    [user_data] and [attempt_counts] as finite maps, the list
    [attendance_records] as a list, and exceptions as an error result. *)

From Stdlib Require Import Reals Lra Lia ZArith String List.
From stdpp Require Import base option list gmap.
Import ListNotations.

Local Open Scope Z_scope.

(** ** Exceptions *)

(** The exceptions the module's own statements can raise: a missing
    dictionary key, a [math] domain error, and an attribute read on [None]. *)
Inductive exn : Set :=
| KeyError
| ValueError
| AttributeError.

Inductive result (A : Type) : Type :=
| Ok (a : A)
| Raise (e : exn).
Arguments Ok {A} a.
Arguments Raise {A} e.

#[global] Instance result_ret : MRet result := fun _ a => Ok a.
#[global] Instance result_bind : MBind result := fun _ _ k r =>
  match r with
  | Ok a => k a
  | Raise e => Raise e
  end.

(** ** The geofence validator *)

Module Geofence.
Local Open Scope R_scope.

(** [math.radians]: multiplication by pi/180. *)
Definition radians (x : R) : R := x * (PI / 180).

(** [math.sqrt] raises [ValueError] on a negative argument. *)
Definition math_sqrt (x : R) : result R :=
  if Rlt_dec x 0 then Raise ValueError else Ok (sqrt x).

(** [math.atan2 y x]: the angle of the point (x, y), in (-pi, pi]. *)
Definition atan2 (y x : R) : R :=
  if Rlt_dec 0 x then atan (y / x)
  else if Rlt_dec x 0 then
         if Rle_dec 0 y then atan (y / x) + PI else atan (y / x) - PI
  else if Rlt_dec 0 y then PI / 2
  else if Rlt_dec y 0 then - (PI / 2)
  else 0.

Definition center_latitude : R := 19.523731621451685.
Definition center_longitude : R := -99.2536655776822.
Definition earth_radius : R := 6371.0.
Definition max_distance : R := 5.0.

(** Lines 130-144 of [is_location_valid], with the centre as a parameter:
    the distance in kilometres from (latitude, longitude) to
    (center_lat, center_lon).  The two [print] calls of the function write
    to standard output only and are left out. *)
Definition distance (latitude longitude center_lat center_lon : R) : result R :=
  let lat1_rad := radians latitude in
  let lon1_rad := radians longitude in
  let lat2_rad := radians center_lat in
  let lon2_rad := radians center_lon in
  let dlon := lon2_rad - lon1_rad in
  let dlat := lat2_rad - lat1_rad in
  let a := sin (dlat / 2) ^ 2 + cos lat1_rad * cos lat2_rad * sin (dlon / 2) ^ 2 in
  sa ← math_sqrt a;
  sb ← math_sqrt (1 - a);
  let c := 2 * atan2 sa sb in
  Ok (earth_radius * c).

Definition is_location_valid (latitude longitude : R) : result bool :=
  d ← distance latitude longitude center_latitude center_longitude;
  Ok (if Rle_dec d max_distance then true else false).

(** *** The validator as the specification words it

    [validate] returns the pair (inside, distance_km), the distance being
    the closed Haversine expression. *)
Definition haversine_a (lat1 lon1 lat2 lon2 : R) : R :=
  Rsqr (sin ((radians lat2 - radians lat1) / 2))
  + cos (radians lat1) * cos (radians lat2)
    * Rsqr (sin ((radians lon2 - radians lon1) / 2)).

Definition haversine_km (Rkm lat1 lon1 lat2 lon2 : R) : R :=
  let a := haversine_a lat1 lon1 lat2 lon2 in
  Rkm * (2 * atan2 (sqrt a) (sqrt (1 - a))).

Definition validate (latitude longitude center_lat center_lon radius_km : R)
  : bool * R :=
  let distance_km := haversine_km 6371.0 latitude longitude center_lat center_lon in
  (if Rle_dec distance_km radius_km then true else false, distance_km).

End Geofence.

(** ** The handlers and the module-level stores *)

Module Bot.
Import Geofence.

(** States of the conversation handler; [END] is [ConversationHandler.END]. *)
Definition CHECK_IN : Z := 1.
Definition GET_LOCATION : Z := 2.
Definition END : Z := -1.

Definition MAX_ATTEMPTS : Z := 3.

(** [datetime.datetime.now()] is read from the environment: every callback
    receives the clock reading of its invocation. *)
Definition timestamp : Type := Z.

(** The value stored under a user id in [user_data]: the dictionary
    [{"username": username}]; a Telegram username may be [None]. *)
Record user_entry : Type := UserEntry {
  entry_username : option string
}.

(** One element of [attendance_records]. *)
Record attendance_record : Type := AttendanceRecord {
  rec_user_id : Z;
  rec_username : option string;
  rec_timestamp : timestamp;
  rec_latitude : R;
  rec_longitude : R
}.

(** The three module-level stores. *)
Record state : Type := State {
  user_data : gmap Z user_entry;
  attendance_records : list attendance_record;
  attempt_counts : gmap Z Z
}.

Definition initial_state : state :=
  {| user_data := ∅; attendance_records := []; attempt_counts := ∅ |}.

(** [update.message.from_user]. *)
Record tg_user : Type := TgUser {
  id : Z;
  username : option string
}.

(** What a message carries: a command (its name, without the slash), a
    location, or anything else (plain text, a photo, ...).  A Telegram
    message with a location has no text, so the three exclude each other. *)
Inductive content : Type :=
| Command (name : string)
| Location (latitude longitude : R)
| Other.

(** The parts of an [Update] the module reads: the chat, the sender and the
    message. *)
Record update : Type := Update {
  chat_id : Z;
  from_user : tg_user;
  message_content : content
}.

(** [update.message.location], [None] when the message has none. *)
Definition location (upd : update) : option (R * R) :=
  match message_content upd with
  | Location latitude longitude => Some (latitude, longitude)
  | _ => None
  end.

Definition command (upd : update) : option string :=
  match message_content upd with
  | Command name => Some name
  | _ => None
  end.

(** The texts passed to [reply_text], with the numbers they interpolate. *)
Inductive message : Type :=
| MsgWelcome
| MsgShareLocation
| MsgRegistered
| MsgOutside (remaining_attempts : Z)
| MsgOutsideExhausted
| MsgInvalidData (remaining_attempts : Z)
| MsgInvalidExhausted
| MsgBye.

(** The [reply_markup] argument: absent, the one-button location keyboard,
    or the empty keyboard. *)
Inductive markup : Set :=
| NoMarkup
| LocationKeyboard
| EmptyKeyboard.

Definition reply : Type := message * markup.

(** What a callback does: it returns the next conversation state after
    sending its replies, or raises; the stores keep whatever was written
    before either. *)
Inductive outcome : Type :=
| Returned (next : Z) (replies : list reply)
| Raised (e : exn).

Definition callback : Type := update -> timestamp -> state -> outcome * state.

Definition set_attempts (user_id n : Z) (st : state) : state :=
  {| user_data := user_data st;
     attendance_records := attendance_records st;
     attempt_counts := <[user_id := n]> (attempt_counts st) |}.

Definition record_attendance (user_id : Z) (username : option string)
    (latitude longitude : R) (now : timestamp) (st : state) : state :=
  {| user_data := user_data st;
     attendance_records :=
       attendance_records st ++
         [ {| rec_user_id := user_id;
              rec_username := username;
              rec_timestamp := now;
              rec_latitude := latitude;
              rec_longitude := longitude |} ];
     attempt_counts := attempt_counts st |}.

Definition start : callback := fun upd _ st =>
  let user := from_user upd in
  let user_id := id user in
  let st :=
    match user_data st !! user_id with
    | None =>
        {| user_data := <[user_id := {| entry_username := username user |}]> (user_data st);
           attendance_records := attendance_records st;
           attempt_counts := attempt_counts st |}
    | Some _ => st
    end in
  (Returned CHECK_IN [(MsgWelcome, NoMarkup)], st).

Definition checkin : callback := fun upd _ st =>
  let user_id := id (from_user upd) in
  let st := set_attempts user_id 0 st in
  (Returned GET_LOCATION [(MsgShareLocation, LocationKeyboard)], st).

(** The failure bookkeeping of [get_location]; its two copies (lines 253-286
    for a location outside the area, lines 288-319 for a message without
    location) differ in the texts only. *)
Definition count_failure (user_id : Z) (retry : Z -> message) (exhausted : message)
    (st : state) : outcome * state :=
  match attempt_counts st !! user_id with
  | None => (Raised KeyError, st)
  | Some n =>
      let st := set_attempts user_id (n + 1) st in
      let remaining_attempts := MAX_ATTEMPTS - (n + 1) in
      if decide (remaining_attempts > 0) then
        (Returned GET_LOCATION [(retry remaining_attempts, LocationKeyboard)], st)
      else
        (Returned END [(exhausted, EmptyKeyboard)], set_attempts user_id 0 st)
  end.

Definition get_location : callback := fun upd now st =>
  let user := from_user upd in
  let user_id := id user in
  match user_data st !! user_id with
  | None => (Raised KeyError, st)
  | Some entry =>
      let username := entry_username entry in
      let st :=
        match attempt_counts st !! user_id with
        | None => set_attempts user_id 0 st
        | Some _ => st
        end in
      match location upd with
      | Some (latitude, longitude) =>
          match is_location_valid latitude longitude with
          | Raise e => (Raised e, st)
          | Ok true =>
              let st := record_attendance user_id username latitude longitude now st in
              let st := set_attempts user_id 0 st in
              (Returned END [(MsgRegistered, EmptyKeyboard)], st)
          | Ok false => count_failure user_id MsgOutside MsgOutsideExhausted st
          end
      | None => count_failure user_id MsgInvalidData MsgInvalidExhausted st
      end
  end.

Definition cancel : callback := fun _ _ st =>
  (Returned END [(MsgBye, NoMarkup)], st).

(** *** The conversation handler built in [main] *)

Inductive handler : Type :=
| CommandHandler (name : string) (cb : callback)
| MessageHandler (filter : update -> bool) (cb : callback).

Definition filters_LOCATION (upd : update) : bool :=
  match location upd with Some _ => true | None => false end.

Definition check_update (h : handler) (upd : update) : bool :=
  match h with
  | CommandHandler name _ =>
      match command upd with
      | Some c => if decide (c = name) then true else false
      | None => false
      end
  | MessageHandler filter _ => filter upd
  end.

Definition handler_callback (h : handler) : callback :=
  match h with
  | CommandHandler _ cb => cb
  | MessageHandler _ cb => cb
  end.

Definition entry_points : list handler := [CommandHandler "start" start].

(** The [states] dictionary; a state without entry has no handlers. *)
Definition states : gmap Z (list handler) :=
  {[ CHECK_IN := [CommandHandler "checkin" checkin];
     GET_LOCATION := [MessageHandler filters_LOCATION get_location] ]}.

Definition fallbacks : list handler := [CommandHandler "cancel" cancel].

(** The running bot: the conversation state of each (chat, user) pair that
    has one, and the stores. *)
Record bot : Type := BotState {
  conversations : gmap (Z * Z) Z;
  stores : state
}.

Definition initial_bot : bot :=
  {| conversations := ∅; stores := initial_state |}.

(** The handler the conversation selects for an update: without a
    conversation in progress only the entry points are tried, within one the
    handlers of the current state and then the fallbacks. *)
Definition select_handler (current : option Z) (upd : update) : option handler :=
  match current with
  | None => List.find (fun h => check_update h upd) entry_points
  | Some s =>
      match List.find (fun h => check_update h upd) (default [] (states !! s)) with
      | Some h => Some h
      | None => List.find (fun h => check_update h upd) fallbacks
      end
  end.

(** One update through the conversation handler.  [None] is an update no
    handler accepts (it is dropped); a callback that returns [END] removes
    the conversation, any other return value becomes its state; a callback
    that raises leaves the conversation where it was. *)
Definition process_update (upd : update) (now : timestamp) (b : bot)
  : option outcome * bot :=
  let key := (chat_id upd, id (from_user upd)) in
  match select_handler (conversations b !! key) upd with
  | None => (None, b)
  | Some h =>
      match handler_callback h upd now (stores b) with
      | (Returned next replies, st) =>
          (Some (Returned next replies),
           {| conversations :=
                if decide (next = END) then delete key (conversations b)
                else <[key := next]> (conversations b);
              stores := st |})
      | (Raised e, st) =>
          (Some (Raised e), {| conversations := conversations b; stores := st |})
      end
  end.

(** A run of the bot over a sequence of updates, with the outcome of each. *)
Fixpoint run (events : list (update * timestamp)) (b : bot)
  : list (option outcome) * bot :=
  match events with
  | [] => ([], b)
  | (upd, now) :: rest =>
      let '(o, b1) := process_update upd now b in
      let '(os, b2) := run rest b1 in
      (o :: os, b2)
  end.

(** Successive calls of one callback on the stores, with the outcome of
    each call. *)
Fixpoint calls (cb : callback) (events : list (update * timestamp)) (st : state)
  : list outcome * state :=
  match events with
  | [] => ([], st)
  | (upd, now) :: rest =>
      let '(o, st1) := cb upd now st in
      let '(os, st2) := calls cb rest st1 in
      (o :: os, st2)
  end.

(** *** Vocabulary of the statements *)

(** A submission that fails: no location in the message, or a location the
    validator refuses. *)
Definition failing (upd : update) : Prop :=
  match location upd with
  | Some (latitude, longitude) => is_location_valid latitude longitude = Ok false
  | None => True
  end.

(** The text of the retry prompt and of the final refusal, by kind of
    failure. *)
Definition retry_message (upd : update) : Z -> message :=
  match location upd with
  | Some _ => MsgOutside
  | None => MsgInvalidData
  end.

Definition exhausted_message (upd : update) : message :=
  match location upd with
  | Some _ => MsgOutsideExhausted
  | None => MsgInvalidExhausted
  end.

(** What [count_failure] and the failure branches of [get_location] answer
    when the counter of the user stands at [n]. *)
Definition failure_answer (upd : update) (n : Z) (st : state) : outcome * state :=
  let user_id := id (from_user upd) in
  if decide (MAX_ATTEMPTS - (n + 1) > 0) then
    (Returned GET_LOCATION
       [(retry_message upd (MAX_ATTEMPTS - (n + 1)), LocationKeyboard)],
     set_attempts user_id (n + 1) st)
  else
    (Returned END [(exhausted_message upd, EmptyKeyboard)],
     set_attempts user_id 0 (set_attempts user_id (n + 1) st)).

(** The key under which the conversation of an update is kept. *)
Definition conversation_key (upd : update) : Z * Z :=
  (chat_id upd, id (from_user upd)).

(** Every conversation in progress belongs to a registered user. *)
Definition conversations_registered (b : bot) : Prop :=
  forall (key : Z * Z) (s : Z),
    conversations b !! key = Some s -> is_Some (user_data (stores b) !! key.2).

(** Every counter is between 0 and MAX_ATTEMPTS - 1. *)
Definition counters_bounded (st : state) : Prop :=
  forall (u c : Z), attempt_counts st !! u = Some c -> 0 <= c < MAX_ATTEMPTS.

(** A record whose coordinates the validator accepts and whose username is
    the one [user_data] holds for its user. *)
Definition record_sound (st : state) (r : attendance_record) : Prop :=
  is_location_valid (rec_latitude r) (rec_longitude r) = Ok true
  /\ exists entry : user_entry,
       user_data st !! rec_user_id r = Some entry
       /\ rec_username r = entry_username entry.

(** Every conversation in progress is in one of the two states of the table,
    belongs to a registered user, and has a counter once the location is
    awaited. *)
Definition conversations_live (b : bot) : Prop :=
  forall (key : Z * Z) (s : Z),
    conversations b !! key = Some s ->
    (s = CHECK_IN \/ s = GET_LOCATION)
    /\ is_Some (user_data (stores b) !! key.2)
    /\ (s = GET_LOCATION -> is_Some (attempt_counts (stores b) !! key.2)).

(** A location the validator accepts, sent by a user of [user_data]. *)
Definition accepted (st : state) (upd : update) : Prop :=
  is_Some (user_data st !! id (from_user upd))
  /\ match location upd with
     | Some (latitude, longitude) => is_location_valid latitude longitude = Ok true
     | None => False
     end.

(** A location the validator refuses. *)
Definition refused (upd : update) : Prop :=
  match location upd with
  | Some (latitude, longitude) => is_location_valid latitude longitude = Ok false
  | None => False
  end.

(** The four callbacks of the module. *)
Definition callbacks : list callback := [start; checkin; get_location; cancel].

(** *** Updates as they are polled

    [main] polls every kind of update ([allowed_updates=Update.ALL_TYPES])
    and its handlers keep their default filters, which let an edited message
    through as well as a new one.  For an edit the message is in
    [update.edited_message] and [update.message] is [None]: the handlers
    match on the effective message, while each of the four callbacks starts
    by reading [update.message.from_user]. *)
Inductive polled : Type :=
| NewMessage (upd : update)
| EditedMessage (upd : update).

(** The update as the handlers see it, through [effective_message],
    [effective_chat] and [effective_user]. *)
Definition effective (p : polled) : update :=
  match p with
  | NewMessage upd => upd
  | EditedMessage upd => upd
  end.

(** A callback on a polled update: on an edit its first statement raises
    [AttributeError], before anything is written. *)
Definition on_polled (cb : callback) (p : polled) : timestamp -> state -> outcome * state :=
  fun now st =>
    match p with
    | NewMessage upd => cb upd now st
    | EditedMessage _ => (Raised AttributeError, st)
    end.

(** One polled update through the conversation handler. *)
Definition process_polled (p : polled) (now : timestamp) (b : bot)
  : option outcome * bot :=
  let key := conversation_key (effective p) in
  match select_handler (conversations b !! key) (effective p) with
  | None => (None, b)
  | Some h =>
      match on_polled (handler_callback h) p now (stores b) with
      | (Returned next replies, st) =>
          (Some (Returned next replies),
           {| conversations :=
                if decide (next = END) then delete key (conversations b)
                else <[key := next]> (conversations b);
              stores := st |})
      | (Raised e, st) =>
          (Some (Raised e), {| conversations := conversations b; stores := st |})
      end
  end.

End Bot.

(** ** Concrete data for the scenarios *)

Module Scenario.
Import Geofence Bot.

Definition alice : tg_user := {| id := 1001; username := Some "alice"%string |}.

(** The same account after a change of username. *)
Definition alice_renamed : tg_user := {| id := 1001; username := Some "alice_mx"%string |}.

Definition bob : tg_user := {| id := 2002; username := None |}.

(** Updates from a private chat, whose id is the user's. *)
Definition command_from (user : tg_user) (name : string) : update :=
  {| chat_id := id user; from_user := user; message_content := Command name |}.

Definition location_from (user : tg_user) (latitude longitude : R) : update :=
  {| chat_id := id user; from_user := user;
     message_content := Location latitude longitude |}.

Definition text_from (user : tg_user) : update :=
  {| chat_id := id user; from_user := user; message_content := Other |}.

(** The stores after alice's first /start, and after her /checkin. *)
Definition registered : state :=
  (start (command_from alice "start") 100 initial_state).2.

Definition checked_in : state :=
  (checkin (command_from alice "checkin") 101 registered).2.

(** The bot after the same two commands went through the conversation. *)
Definition awaiting_location : bot :=
  (run [(command_from alice "start", 100); (command_from alice "checkin", 101)]
       initial_bot).2.



(** Three messages without location. *)
Definition three_texts : list (update * timestamp) :=
  [(text_from alice, 102); (text_from alice, 103); (text_from alice, 104)].

(** Two reports from the centre, the second under the new username. *)
Definition two_reports : list (update * timestamp) :=
  [(location_from alice center_latitude center_longitude, 102);
   (location_from alice_renamed center_latitude center_longitude, 103)].

(** Three reports from the antipode of the centre. *)
Definition three_far_reports : list (update * timestamp) :=
  [(location_from alice (- center_latitude) (center_longitude + 180), 102);
   (location_from alice (- center_latitude) (center_longitude + 180), 103);
   (location_from alice (- center_latitude) (center_longitude + 180), 104)].

(** What bob sends while alice is asked for her location. *)
Definition bob_session : list (update * timestamp) :=
  [(command_from bob "start", 110); (command_from bob "checkin", 111);
   (location_from bob (- center_latitude) (center_longitude + 180), 112)].

(** Alice in two chats at once: in her private chat the location is awaited
    and two attempts are used; in the group 5005 she has sent /start. *)
Definition alice_in_two_chats : bot :=
  {| conversations := {[ (1001, 1001) := GET_LOCATION; (5005, 1001) := CHECK_IN ]};
     stores := set_attempts 1001 2 registered |}.

Definition checkin_in_group : update :=
  {| chat_id := 5005; from_user := alice; message_content := Command "checkin" |}.

(** Bob, who has no conversation, edits a message into /start. *)
Definition edited_start_from_bob : polled :=
  EditedMessage (command_from bob "start").

End Scenario.

(** * Properties of the validator *)

Section GeofenceFacts.
Import Geofence.
Local Open Scope R_scope.

Lemma cos_product (m x : R) :
  cos (m - x) * cos (m + x) = Rsqr (cos m) - Rsqr (sin x).
Proof.
  rewrite cos_minus, cos_plus.
  pose proof (sin2_cos2 m) as Hm.
  pose proof (sin2_cos2 x) as Hx.
  unfold Rsqr in *. nra.
Qed.

Lemma sin_range_sqr (x : R) : 0 <= Rsqr (sin x) <= 1.
Proof.
  pose proof (sin2_cos2 x) as H.
  pose proof (Rle_0_sqr (sin x)). pose proof (Rle_0_sqr (cos x)). lra.
Qed.

Lemma cos_range_sqr (x : R) : 0 <= Rsqr (cos x) <= 1.
Proof.
  pose proof (sin2_cos2 x) as H.
  pose proof (Rle_0_sqr (sin x)). pose proof (Rle_0_sqr (cos x)). lra.
Qed.

(** The quantity under the square roots is a convex combination of two
    squares of sines and cosines, hence lies between 0 and 1 whatever the
    coordinates. *)
Lemma haversine_a_range (lat1 lon1 lat2 lon2 : R) :
  0 <= haversine_a lat1 lon1 lat2 lon2 <= 1.
Proof.
  unfold haversine_a.
  set (l1 := radians lat1). set (l2 := radians lat2).
  set (y := (radians lon2 - radians lon1) / 2).
  set (m := (l1 + l2) / 2). set (x := (l2 - l1) / 2).
  replace (cos l1) with (cos (m - x)) by (f_equal; unfold m, x; lra).
  replace (cos l2) with (cos (m + x)) by (f_equal; unfold m, x; lra).
  rewrite cos_product.
  pose proof (sin_range_sqr x). pose proof (sin_range_sqr y).
  pose proof (cos_range_sqr m).
  nra.
Qed.

Lemma math_sqrt_nonneg (x : R) : 0 <= x -> math_sqrt x = Ok (sqrt x).
Proof.
  intros Hx. unfold math_sqrt. destruct (Rlt_dec x 0); [lra | reflexivity].
Qed.

(** The source expression for [a] is the one of [haversine_a]. *)
Lemma source_a (lat1 lon1 lat2 lon2 : R) :
  sin ((radians lat2 - radians lat1) / 2) ^ 2
  + cos (radians lat1) * cos (radians lat2)
    * sin ((radians lon2 - radians lon1) / 2) ^ 2
  = haversine_a lat1 lon1 lat2 lon2.
Proof. unfold haversine_a, Rsqr. ring. Qed.

(** The two square roots never raise, and the distance computed is the
    Haversine distance on a sphere of radius 6371 km. *)
Lemma distance_haversine (lat lon clat clon : R) :
  distance lat lon clat clon = Ok (haversine_km 6371.0 lat lon clat clon).
Proof.
  unfold distance. cbv zeta. rewrite source_a.
  pose proof (haversine_a_range lat lon clat clon) as [H0 H1].
  rewrite (math_sqrt_nonneg _ H0). cbn.
  rewrite math_sqrt_nonneg by lra. cbn.
  reflexivity.
Qed.

Lemma is_location_valid_validate (lat lon : R) :
  is_location_valid lat lon
  = Ok (fst (validate lat lon center_latitude center_longitude 5.0)).
Proof.
  unfold is_location_valid. rewrite distance_haversine. cbn.
  reflexivity.
Qed.

Lemma is_location_valid_total (lat lon : R) :
  exists inside : bool, is_location_valid lat lon = Ok inside.
Proof. rewrite is_location_valid_validate. eauto. Qed.

End GeofenceFacts.

Section GeofenceTheorems.
Import Geofence.
Local Open Scope R_scope.

Lemma atan2_0_1 : atan2 0 1 = 0.
Proof.
  unfold atan2. destruct (Rlt_dec 0 1); [|lra].
  replace (0 / 1) with 0 by field. apply atan_0.
Qed.

Lemma atan2_1_0 : atan2 1 0 = PI / 2.
Proof.
  unfold atan2.
  destruct (Rlt_dec 0 0); [lra|].
  destruct (Rlt_dec 0 1); [reflexivity | lra].
Qed.

(** Where [a] vanishes the distance is 0 and the report is accepted. *)
Lemma valid_when_a_zero (lat lon : R) :
  haversine_a lat lon center_latitude center_longitude = 0 ->
  is_location_valid lat lon = Ok true.
Proof.
  intros Ha. rewrite is_location_valid_validate.
  unfold validate, haversine_km. cbv zeta. rewrite Ha.
  replace (1 - 0) with 1 by ring. rewrite sqrt_0, sqrt_1, atan2_0_1. cbn.
  destruct (Rle_dec _ _) as [|Hn]; [reflexivity|].
  exfalso. apply Hn. lra.
Qed.

(** Where [a] is 1 the distance is half the circumference and the report
    is refused. *)
Lemma invalid_when_a_one (lat lon : R) :
  haversine_a lat lon center_latitude center_longitude = 1 ->
  is_location_valid lat lon = Ok false.
Proof.
  intros Ha. rewrite is_location_valid_validate.
  unfold validate, haversine_km. cbv zeta. rewrite Ha.
  replace (1 - 1) with 0 by ring. rewrite sqrt_0, sqrt_1, atan2_1_0. cbn.
  destruct (Rle_dec _ _) as [Hle|]; [|reflexivity].
  exfalso. pose proof PI2_3_2. lra.
Qed.

(** Scenario 1 of the specification: the centre itself is inside. *)
Lemma center_is_valid :
  is_location_valid center_latitude center_longitude = Ok true.
Proof.
  apply valid_when_a_zero. unfold haversine_a.
  replace ((radians center_latitude - radians center_latitude) / 2) with 0 by field.
  replace ((radians center_longitude - radians center_longitude) / 2) with 0 by field.
  rewrite sin_0. unfold Rsqr. ring.
Qed.


(** The antipode of the centre, a well-formed coordinate pair, is outside. *)
Lemma antipode_is_invalid :
  is_location_valid (- center_latitude) (center_longitude + 180) = Ok false.
Proof.
  apply invalid_when_a_one. unfold haversine_a.
  replace ((radians center_latitude - radians (- center_latitude)) / 2)
    with (radians center_latitude) by (unfold radians; field).
  replace ((radians center_longitude - radians (center_longitude + 180)) / 2)
    with (- (PI / 2)) by (unfold radians; field).
  replace (radians (- center_latitude)) with (- radians center_latitude)
    by (unfold radians; field).
  rewrite cos_neg, sin_neg, sin_PI2.
  pose proof (sin2_cos2 (radians center_latitude)) as H.
  unfold Rsqr in *. lra.
Qed.

(** C1: the validator computes the Haversine distance (radius 6371.0 km)
    from the report to the centre (19.523731621451685, -99.2536655776822)
    without raising, and answers [true] exactly when that distance is at
    most 5.0 km; a distance of exactly 5.0 km is inside. *)
Theorem C1_validator_is_haversine_within_radius (lat lon : R) :
  let d := haversine_km 6371.0 lat lon 19.523731621451685 (-99.2536655776822) in
  distance lat lon center_latitude center_longitude = Ok d
  /\ validate lat lon center_latitude center_longitude 5.0
     = (if Rle_dec d 5.0 then true else false, d)
  /\ is_location_valid lat lon
     = Ok (fst (validate lat lon center_latitude center_longitude 5.0))
  /\ (is_location_valid lat lon = Ok true <-> d <= 5.0)
  /\ (is_location_valid lat lon = Ok false <-> 5.0 < d)
  /\ (d = 5.0 -> is_location_valid lat lon = Ok true).
Proof.
  intros d.
  assert (Hd : distance lat lon center_latitude center_longitude = Ok d)
    by apply distance_haversine.
  assert (Hv : is_location_valid lat lon = Ok (if Rle_dec d 5.0 then true else false)).
  { unfold is_location_valid. rewrite Hd. reflexivity. }
  split; [exact Hd|]. split; [reflexivity|].
  split; [apply is_location_valid_validate|].
  rewrite Hv. destruct (Rle_dec d 5.0) as [Hle|Hgt].
  - repeat split; intros; try lra; try congruence; try reflexivity.
  - repeat split; intros; try lra; try congruence; try reflexivity.
Qed.

(** C8: the distance of the validator's formula does not depend on which of
    the two points is the report and which the centre. *)
Theorem C8_distance_symmetric (lat1 lon1 lat2 lon2 : R) :
  distance lat1 lon1 lat2 lon2 = distance lat2 lon2 lat1 lon1.
Proof.
  unfold distance. cbv zeta.
  replace ((radians lat1 - radians lat2) / 2)
    with (- ((radians lat2 - radians lat1) / 2)) by field.
  replace ((radians lon1 - radians lon2) / 2)
    with (- ((radians lon2 - radians lon1) / 2)) by field.
  rewrite !sin_neg.
  set (s := sin ((radians lat2 - radians lat1) / 2)).
  set (t := sin ((radians lon2 - radians lon1) / 2)).
  replace ((- s) ^ 2 + cos (radians lat2) * cos (radians lat1) * (- t) ^ 2)
    with (s ^ 2 + cos (radians lat1) * cos (radians lat2) * t ^ 2) by ring.
  reflexivity.
Qed.

End GeofenceTheorems.

(** * Properties of the check-in session *)

Section SessionFacts.
Import Geofence Bot.

Lemma get_location_unregistered (upd : update) (now : timestamp) (st : state) :
  user_data st !! id (from_user upd) = None ->
  get_location upd now st = (Raised KeyError, st).
Proof. intros H. unfold get_location. cbv zeta. rewrite H. reflexivity. Qed.

Lemma get_location_failure (upd : update) (now : timestamp) (st : state)
    (entry : user_entry) (n : Z) :
  user_data st !! id (from_user upd) = Some entry ->
  attempt_counts st !! id (from_user upd) = Some n ->
  failing upd ->
  get_location upd now st = failure_answer upd n st.
Proof.
  intros Hu Hn Hf. unfold get_location, failure_answer. cbv zeta.
  rewrite Hu, Hn.
  unfold failing, retry_message, exhausted_message in *.
  destruct (location upd) as [[lat lon]|].
  - rewrite Hf. unfold count_failure. rewrite Hn. reflexivity.
  - unfold count_failure. rewrite Hn. reflexivity.
Qed.

Lemma get_location_failure_fresh (upd : update) (now : timestamp) (st : state)
    (entry : user_entry) :
  user_data st !! id (from_user upd) = Some entry ->
  attempt_counts st !! id (from_user upd) = None ->
  failing upd ->
  get_location upd now st
  = failure_answer upd 0 (set_attempts (id (from_user upd)) 0 st).
Proof.
  intros Hu Hn Hf. unfold get_location, failure_answer. cbv zeta.
  rewrite Hu, Hn.
  unfold failing, retry_message, exhausted_message in *.
  destruct (location upd) as [[lat lon]|].
  - rewrite Hf. unfold count_failure, set_attempts at 1. cbn.
    rewrite lookup_insert_eq. reflexivity.
  - unfold count_failure, set_attempts at 1. cbn.
    rewrite lookup_insert_eq. reflexivity.
Qed.

Lemma get_location_success (upd : update) (now : timestamp) (st : state)
    (entry : user_entry) (lat lon : R) :
  user_data st !! id (from_user upd) = Some entry ->
  location upd = Some (lat, lon) ->
  is_location_valid lat lon = Ok true ->
  get_location upd now st
  = (Returned END [(MsgRegistered, EmptyKeyboard)],
     {| user_data := user_data st;
        attendance_records :=
          attendance_records st ++
            [ {| rec_user_id := id (from_user upd);
                 rec_username := entry_username entry;
                 rec_timestamp := now;
                 rec_latitude := lat;
                 rec_longitude := lon |} ];
        attempt_counts := <[id (from_user upd) := 0]> (attempt_counts st) |}).
Proof.
  intros Hu Hl Hv. unfold get_location. cbv zeta.
  rewrite Hu, Hl, Hv.
  destruct (attempt_counts st !! id (from_user upd)) eqn:Hn;
    unfold set_attempts, record_attendance; cbn; [reflexivity|].
  rewrite insert_insert_eq. reflexivity.
Qed.

Lemma failure_answer_registered (upd : update) (n : Z) (st : state) :
  user_data (failure_answer upd n st).2 = user_data st.
Proof. unfold failure_answer. cbv zeta. destruct (decide _); reflexivity. Qed.

Lemma failure_answer_records (upd : update) (n : Z) (st : state) :
  attendance_records (failure_answer upd n st).2 = attendance_records st.
Proof. unfold failure_answer. cbv zeta. destruct (decide _); reflexivity. Qed.

Lemma failure_answer_count (upd : update) (n : Z) (st : state) :
  attempt_counts (failure_answer upd n st).2 !! id (from_user upd)
  = Some (if decide (MAX_ATTEMPTS - (n + 1) > 0) then n + 1 else 0).
Proof.
  unfold failure_answer. cbv zeta. destruct (decide _); cbn;
    rewrite lookup_insert_eq; reflexivity.
Qed.

End SessionFacts.

Section SessionRuns.
Import Geofence Bot.

Lemma calls_app (cb : callback) (l1 l2 : list (update * timestamp)) (st : state) :
  calls cb (l1 ++ l2) st
  = ((calls cb l1 st).1 ++ (calls cb l2 (calls cb l1 st).2).1,
     (calls cb l2 (calls cb l1 st).2).2).
Proof.
  revert st. induction l1 as [|[upd now] l1 IH]; intros st; cbn.
  - destruct (calls cb l2 st); reflexivity.
  - destruct (cb upd now st) as [o st1]. rewrite IH.
    destruct (calls cb l1 st1) as [os1 st2]. cbn.
    destruct (calls cb l2 st2); reflexivity.
Qed.

Lemma calls_length (cb : callback) (l : list (update * timestamp)) (st : state) :
  length (calls cb l st).1 = length l.
Proof.
  revert st. induction l as [|[upd now] l IH]; intros st; cbn; [reflexivity|].
  destruct (cb upd now st) as [o st1]. specialize (IH st1).
  destruct (calls cb l st1). cbn in *. congruence.
Qed.

(** The call number [k] of a run is the callback applied to the stores the
    first [k] calls leave. *)
Lemma calls_lookup (cb : callback) (l : list (update * timestamp)) (st : state)
    (k : nat) (upd : update) (now : timestamp) :
  l !! k = Some (upd, now) ->
  (calls cb l st).1 !! k = Some (cb upd now (calls cb (take k l) st).2).1
  /\ (calls cb (take (S k) l) st).2 = (cb upd now (calls cb (take k l) st).2).2.
Proof.
  intros Hk.
  pose proof (take_drop_middle l k (upd, now) Hk) as Hsplit.
  assert (Hlen : length (take k l) = k).
  { apply length_take_le. apply lookup_lt_Some in Hk. lia. }
  split.
  - rewrite <- Hsplit at 1. rewrite calls_app. cbn.
    rewrite lookup_app_r by (rewrite calls_length; lia).
    rewrite calls_length, Hlen, Nat.sub_diag. cbn.
    destruct (cb upd now _) as [o st1]. destruct (calls cb _ st1). reflexivity.
  - rewrite (take_S_r l k (upd, now) Hk), calls_app. cbn.
    destruct (cb upd now _) as [o st1]. reflexivity.
Qed.

(** While the limit is not reached, failures of one registered user add up
    in the counter and touch nothing else. *)
Lemma failures_below_limit (u : Z) (evs : list (update * timestamp)) :
  forall (st : state) (n : Z),
    is_Some (user_data st !! u) ->
    attempt_counts st !! u = Some n ->
    Forall (fun ev => id (from_user ev.1) = u /\ failing ev.1) evs ->
    n + Z.of_nat (length evs) < MAX_ATTEMPTS ->
    user_data (calls get_location evs st).2 = user_data st
    /\ attendance_records (calls get_location evs st).2 = attendance_records st
    /\ attempt_counts (calls get_location evs st).2 !! u
       = Some (n + Z.of_nat (length evs)).
Proof.
  induction evs as [|[upd now] evs IH]; intros st n [e He] Hn Hall Hlen.
  - cbn. rewrite Z.add_0_r. auto.
  - apply Forall_cons in Hall as [[Hu Hf] Hall]. cbn in Hu, Hf, Hlen. subst u.
    cbn [calls].
    rewrite (get_location_failure upd now st e n He Hn Hf).
    pose proof (failure_answer_registered upd n st) as Hreg.
    pose proof (failure_answer_records upd n st) as Hrec.
    pose proof (failure_answer_count upd n st) as Hcnt.
    destruct (failure_answer upd n st) as [o st1]. cbn in Hreg, Hrec, Hcnt.
    rewrite decide_True in Hcnt by (unfold MAX_ATTEMPTS in *; lia).
    destruct (IH st1 (n + 1)) as (H1 & H2 & H3).
    + rewrite Hreg, He. eauto.
    + exact Hcnt.
    + exact Hall.
    + lia.
    + destruct (calls get_location evs st1) as [os st2]. cbn in *.
      rewrite H1, H2, H3, Hreg, Hrec. repeat split. f_equal. lia.
Qed.

End SessionRuns.

Section SessionTheorems.
Import Geofence Bot.

(** How a run of at most MAX_ATTEMPTS failures of one registered user goes
    when the counter starts at 0. *)
Lemma failure_run (u : Z) (st : state) (evs : list (update * timestamp)) :
  is_Some (user_data st !! u) ->
  attempt_counts st !! u = Some 0 ->
  Forall (fun ev => id (from_user ev.1) = u /\ failing ev.1) evs ->
  Z.of_nat (length evs) <= MAX_ATTEMPTS ->
  forall (k : nat) (upd : update) (now : timestamp),
    evs !! k = Some (upd, now) ->
    let failed := Z.of_nat (S k) in
    let remaining_attempts := MAX_ATTEMPTS - failed in
    let outcomes := (calls get_location evs st).1 in
    let after := (calls get_location (take (S k) evs) st).2 in
    (remaining_attempts > 0 ->
       outcomes !! k
       = Some (Returned GET_LOCATION
                 [(retry_message upd remaining_attempts, LocationKeyboard)])
       /\ attempt_counts after !! u = Some failed)
    /\ (remaining_attempts = 0 ->
          outcomes !! k
          = Some (Returned END [(exhausted_message upd, EmptyKeyboard)])
          /\ attempt_counts after !! u = Some 0)
    /\ remaining_attempts >= 0
    /\ exists c : Z,
         attempt_counts after !! u = Some c /\ 0 <= c <= MAX_ATTEMPTS.
Proof.
  intros Hreg Hst0 Hall Hlen.
  intros k upd now Hk failed remaining_attempts outcomes after.
  pose proof (lookup_lt_Some _ _ _ Hk) as Hklt.
  assert (Hk' : Forall (fun ev => id (from_user ev.1) = u /\ failing ev.1) (take k evs))
    by (apply Forall_take; exact Hall).
  assert (Hlk : length (take k evs) = k) by (apply length_take_le; lia).
  destruct (failures_below_limit u (take k evs) st 0) as (H1 & _ & H3); auto.
  { rewrite Hlk. lia. }
  rewrite Hlk, Z.add_0_l in H3.
  destruct (calls_lookup get_location evs st k upd now Hk) as [Ho Ha].
  fold outcomes in Ho. fold after in Ha.
  set (stk := (calls get_location (take k evs) st).2) in *.
  assert (Hupd : id (from_user upd) = u /\ failing upd).
  { rewrite Forall_lookup in Hall. apply (Hall k (upd, now) Hk). }
  destruct Hupd as [Hu Hf].
  assert (Hreg' : is_Some (user_data stk !! id (from_user upd))).
  { rewrite Hu, H1. exact Hreg. }
  destruct Hreg' as [e He].
  rewrite <- Hu in H3.
  rewrite (get_location_failure upd now stk e _ He H3 Hf) in Ho, Ha.
  pose proof (failure_answer_count upd (Z.of_nat k) stk) as Hcnt.
  rewrite <- Ha in Hcnt. rewrite Hu in Hcnt.
  unfold failure_answer in Ho. cbv zeta in Ho.
  replace (Z.of_nat k + 1) with failed in * by (unfold failed; lia).
  fold remaining_attempts in Ho, Hcnt.
  destruct (decide (remaining_attempts > 0)) as [Hpos|Hzero]; cbn in Ho.
  - repeat split; try (intros; lia); auto.
    exists failed. split; [exact Hcnt|]. unfold failed, remaining_attempts in *. lia.
  - assert (remaining_attempts = 0)
      by (unfold remaining_attempts, failed in *; lia).
    repeat split; try (intros; lia); auto.
    exists 0. split; [exact Hcnt|]. unfold MAX_ATTEMPTS. lia.
Qed.

(** A registered user without counter is served as one whose counter is 0. *)
Lemma get_location_fresh_counter (upd : update) (now : timestamp) (st : state) :
  is_Some (user_data st !! id (from_user upd)) ->
  attempt_counts st !! id (from_user upd) = None ->
  get_location upd now st
  = get_location upd now (set_attempts (id (from_user upd)) 0 st).
Proof.
  intros [e He] Hn. unfold get_location. cbv zeta.
  unfold set_attempts at 2 3. cbn. rewrite He, Hn, lookup_insert_eq. reflexivity.
Qed.

Lemma calls_fresh_counter (u : Z) (evs : list (update * timestamp)) (st : state) :
  is_Some (user_data st !! u) ->
  attempt_counts st !! u = None ->
  Forall (fun ev => id (from_user ev.1) = u /\ failing ev.1) evs ->
  evs <> [] ->
  calls get_location evs st = calls get_location evs (set_attempts u 0 st).
Proof.
  intros Hreg Hn Hall Hne. destruct evs as [|[upd now] evs]; [congruence|].
  apply Forall_cons in Hall as [[Hu _] _]. cbn in Hu. subst u.
  cbn [calls]. rewrite (get_location_fresh_counter upd now st Hreg Hn). reflexivity.
Qed.

(** [get_location] called directly, after [checkin] has put the counter of
    a registered user at 0: in at most MAX_ATTEMPTS consecutive failing
    calls the failure number k+1 leaves MAX_ATTEMPTS - (k+1) attempts; while
    that is positive the callback answers the retry prompt with this number
    and returns GET_LOCATION, when it is 0 it answers the final refusal,
    returns END and puts the counter back at 0. *)
Lemma direct_failures_count_down
    (st0 : state) (upd0 : update) (now0 : timestamp)
    (evs : list (update * timestamp)) :
  let u := id (from_user upd0) in
  let st := (checkin upd0 now0 st0).2 in
  is_Some (user_data st0 !! u) ->
  Forall (fun ev => id (from_user ev.1) = u /\ failing ev.1) evs ->
  Z.of_nat (length evs) <= MAX_ATTEMPTS ->
  attempt_counts st !! u = Some 0
  /\ forall (k : nat) (upd : update) (now : timestamp),
       evs !! k = Some (upd, now) ->
       let failed := Z.of_nat (S k) in
       let remaining_attempts := MAX_ATTEMPTS - failed in
       let outcomes := (calls get_location evs st).1 in
       let after := (calls get_location (take (S k) evs) st).2 in
       (remaining_attempts > 0 ->
          outcomes !! k
          = Some (Returned GET_LOCATION
                    [(retry_message upd remaining_attempts, LocationKeyboard)])
          /\ attempt_counts after !! u = Some failed)
       /\ (remaining_attempts = 0 ->
             outcomes !! k
             = Some (Returned END [(exhausted_message upd, EmptyKeyboard)])
             /\ attempt_counts after !! u = Some 0)
       /\ remaining_attempts >= 0
       /\ exists c : Z,
            attempt_counts after !! u = Some c /\ 0 <= c <= MAX_ATTEMPTS.
Proof.
  intros u st Hreg Hall Hlen.
  assert (Hst0 : attempt_counts st !! u = Some 0).
  { unfold st, checkin, set_attempts. cbn. apply lookup_insert_eq. }
  split; [exact Hst0|].
  apply failure_run; auto.
Qed.

(** C9: a registered user whose counter has no entry is served by
    [get_location] exactly as if the counter were 0: the first failure
    leaves MAX_ATTEMPTS - 1 attempts, and in a run of failures only the one
    numbered MAX_ATTEMPTS ends the conversation. *)
Theorem C9_missing_counter_counts_from_zero
    (u : Z) (st : state) (evs : list (update * timestamp)) :
  is_Some (user_data st !! u) ->
  attempt_counts st !! u = None ->
  Forall (fun ev => id (from_user ev.1) = u /\ failing ev.1) evs ->
  Z.of_nat (length evs) <= MAX_ATTEMPTS ->
  forall (k : nat) (upd : update) (now : timestamp),
    evs !! k = Some (upd, now) ->
    let failed := Z.of_nat (S k) in
    let remaining_attempts := MAX_ATTEMPTS - failed in
    let outcomes := (calls get_location evs st).1 in
    let after := (calls get_location (take (S k) evs) st).2 in
    calls get_location evs st = calls get_location evs (set_attempts u 0 st)
    /\ (remaining_attempts > 0 ->
          outcomes !! k
          = Some (Returned GET_LOCATION
                    [(retry_message upd remaining_attempts, LocationKeyboard)])
          /\ attempt_counts after !! u = Some failed)
    /\ (remaining_attempts = 0 ->
          outcomes !! k
          = Some (Returned END [(exhausted_message upd, EmptyKeyboard)])
          /\ attempt_counts after !! u = Some 0).
Proof.
  intros Hreg Hn Hall Hlen k upd now Hk failed remaining_attempts outcomes after.
  assert (Hne : evs <> []) by (intros ->; discriminate).
  assert (Hne' : take (S k) evs <> []).
  { destruct evs; [congruence | discriminate]. }
  unfold outcomes, after.
  rewrite (calls_fresh_counter u evs st Hreg Hn Hall Hne).
  rewrite (calls_fresh_counter u (take (S k) evs) st Hreg Hn
             (Forall_take _ _ _ Hall) Hne').
  destruct (failure_run u (set_attempts u 0 st) evs) with (k := k) (upd := upd) (now := now)
    as (Hretry & Hlast & _); auto.
  unfold set_attempts. cbn. apply lookup_insert_eq.
Qed.


(** Whatever the stores, a failed submission leaves the records alone. *)
Lemma failing_call_keeps_records (upd : update) (now : timestamp) (st : state) :
  failing upd ->
  attendance_records (get_location upd now st).2 = attendance_records st.
Proof.
  intros Hf.
  destruct (user_data st !! id (from_user upd)) as [e|] eqn:He.
  - destruct (attempt_counts st !! id (from_user upd)) as [n|] eqn:Hn.
    + rewrite (get_location_failure upd now st e n He Hn Hf).
      apply failure_answer_records.
    + rewrite (get_location_failure_fresh upd now st e He Hn Hf).
      rewrite failure_answer_records. reflexivity.
  - rewrite get_location_unregistered by exact He. reflexivity.
Qed.

(** C4: failed submissions (location refused, or no location), however many
    and from whichever users, leave [attendance_records] as it was. *)
Theorem C4_failures_append_nothing (evs : list (update * timestamp)) (st : state) :
  Forall (fun ev => failing ev.1) evs ->
  attendance_records (calls get_location evs st).2 = attendance_records st.
Proof.
  revert st. induction evs as [|[upd now] evs IH]; intros st Hall; [reflexivity|].
  apply Forall_cons in Hall as [Hf Hall]. cbn in Hf. cbn [calls].
  pose proof (failing_call_keeps_records upd now st Hf) as Hrec.
  destruct (get_location upd now st) as [o st1]. cbn in Hrec.
  specialize (IH st1 Hall).
  destruct (calls get_location evs st1) as [os st2]. cbn in *. congruence.
Qed.

End SessionTheorems.

(** * The conversation handler *)

Section ConversationFacts.
Import Geofence Bot.
Local Open Scope string_scope.

Lemma states_lookup (s : Z) :
  default [] (states !! s)
  = if decide (s = CHECK_IN) then [CommandHandler "checkin" checkin]
    else if decide (s = GET_LOCATION)
         then [MessageHandler filters_LOCATION get_location]
         else [].
Proof.
  unfold states.
  destruct (decide (s = CHECK_IN)) as [->|H1].
  - rewrite lookup_insert_eq. reflexivity.
  - rewrite lookup_insert_ne by congruence.
    destruct (decide (s = GET_LOCATION)) as [->|H2].
    + rewrite lookup_singleton_eq. reflexivity.
    + rewrite lookup_singleton_ne by congruence. reflexivity.
Qed.

(** Without a conversation only /start is accepted. *)
Lemma select_handler_none (upd : update) :
  select_handler None upd
  = if decide (command upd = Some "start")
    then Some (CommandHandler "start" start) else None.
Proof.
  unfold select_handler, entry_points. cbn.
  destruct (command upd) as [c|].
  - destruct (decide (c = "start")) as [->|Hc].
    + rewrite decide_True by reflexivity. reflexivity.
    + rewrite decide_False by congruence. reflexivity.
  - rewrite decide_False by discriminate. reflexivity.
Qed.


(** The handlers the conversation can select. *)
Lemma select_handler_cases (current : option Z) (upd : update) (h : handler) :
  select_handler current upd = Some h ->
  (current = None /\ h = CommandHandler "start" start)
  \/ (is_Some current
      /\ (h = CommandHandler "checkin" checkin
          \/ h = MessageHandler filters_LOCATION get_location
          \/ h = CommandHandler "cancel" cancel)).
Proof.
  destruct current as [s|].
  - intros H. right. split; [eauto|].
    unfold select_handler in H. rewrite states_lookup in H.
    unfold fallbacks in H.
    destruct (decide (s = CHECK_IN)); [|destruct (decide (s = GET_LOCATION))];
      cbn in H; repeat case_match; naive_solver.
  - rewrite select_handler_none. destruct (decide _); naive_solver.
Qed.

Lemma get_location_keeps_users (upd : update) (now : timestamp) (st : state) :
  user_data (get_location upd now st).2 = user_data st.
Proof.
  unfold get_location, count_failure. cbv zeta.
  destruct (user_data st !! _); [|reflexivity].
  destruct (attempt_counts st !! _) eqn:Hn; cbn.
  - destruct (location upd) as [[lat lon]|].
    + destruct (is_location_valid lat lon) as [[]|]; cbn; try reflexivity.
      rewrite Hn. destruct (decide _); reflexivity.
    + rewrite Hn. destruct (decide _); reflexivity.
  - destruct (location upd) as [[lat lon]|].
    + destruct (is_location_valid lat lon) as [[]|]; cbn; try reflexivity.
      rewrite lookup_insert_eq. destruct (decide _); reflexivity.
    + rewrite lookup_insert_eq. destruct (decide _); reflexivity.
Qed.

Lemma start_registers (upd : update) (now : timestamp) (st : state) (u : Z) :
  u = id (from_user upd) \/ is_Some (user_data st !! u) ->
  is_Some (user_data (start upd now st).2 !! u).
Proof.
  unfold start. cbv zeta. cbn.
  destruct (user_data st !! id (from_user upd)) eqn:Hu; cbn.
  - intros [->|H]; [rewrite Hu; eauto | exact H].
  - intros [->|H]; [rewrite lookup_insert_eq; eauto|].
    destruct (decide (u = id (from_user upd))) as [->|Hne].
    + rewrite lookup_insert_eq; eauto.
    + rewrite lookup_insert_ne by congruence. exact H.
Qed.

End ConversationFacts.

Section ConversationInvariant.
Import Geofence Bot.
Local Open Scope string_scope.

(** Changing the state of a conversation that exists, or removing one,
    keeps every conversation with a registered user as long as the registry
    is kept. *)
Lemma registered_step (b : bot) (key : Z * Z) (st' : state)
    (convs' : gmap (Z * Z) Z) :
  conversations_registered b ->
  is_Some (conversations b !! key) ->
  user_data st' = user_data (stores b) ->
  (forall k s, convs' !! k = Some s -> k = key \/ conversations b !! k = Some s) ->
  conversations_registered {| conversations := convs'; stores := st' |}.
Proof.
  intros Hinv [s0 Hkey] Hu Hsub k s Hk. cbn in *. rewrite Hu.
  destruct (Hsub k s Hk) as [->|Hold]; eauto.
Qed.

Lemma lookup_after_return (convs : gmap (Z * Z) Z) (key : Z * Z) (next : Z)
    (k : Z * Z) (s : Z) :
  (if decide (next = END) then delete key convs else <[key := next]> convs) !! k
  = Some s ->
  k = key \/ convs !! k = Some s.
Proof.
  destruct (decide (k = key)) as [->|Hne]; [auto|].
  destruct (decide (next = END)).
  - rewrite lookup_delete_ne by congruence. auto.
  - rewrite lookup_insert_ne by congruence. auto.
Qed.

Lemma process_update_keeps_registered (upd : update) (now : timestamp) (b : bot) :
  conversations_registered b ->
  conversations_registered (process_update upd now b).2.
Proof.
  intros Hinv. unfold process_update. cbv zeta.
  set (key := (chat_id upd, id (from_user upd))).
  destruct (select_handler (conversations b !! key) upd) as [h|] eqn:Hsel;
    [|exact Hinv].
  apply select_handler_cases in Hsel
    as [[Hnone ->] | [Hsome [-> | [-> | ->]]]]; cbn [handler_callback].
  - assert (Hs : start upd now (stores b)
                 = (Returned CHECK_IN [(MsgWelcome, NoMarkup)],
                    (start upd now (stores b)).2)) by reflexivity.
    rewrite Hs. clear Hs.
    rewrite decide_False by (unfold CHECK_IN, END; lia).
    intros k s Hk. cbn [conversations stores snd] in *.
    destruct (decide (k = key)) as [->|Hne].
    + apply start_registers. left. reflexivity.
    + rewrite lookup_insert_ne in Hk by congruence.
      apply start_registers. right. eauto.
  - unfold checkin. cbv zeta.
    rewrite decide_False by (unfold GET_LOCATION, END; lia).
    apply (registered_step b key); auto.
    intros k s. apply (lookup_after_return _ key GET_LOCATION).
  - pose proof (get_location_keeps_users upd now (stores b)) as Hu.
    destruct (get_location upd now (stores b)) as [[next replies|e] st']; cbn in Hu.
    + apply (registered_step b key); auto.
      intros k s. apply lookup_after_return.
    + apply (registered_step b key); auto.
  - unfold cancel. rewrite decide_True by reflexivity.
    apply (registered_step b key); auto.
    intros k s. apply (lookup_after_return _ key END).
Qed.

Lemma initial_bot_registered : conversations_registered initial_bot.
Proof. intros k s Hk. cbn in Hk. rewrite lookup_empty in Hk. discriminate. Qed.

Lemma run_keeps_registered (evs : list (update * timestamp)) :
  forall b : bot,
    conversations_registered b -> conversations_registered (run evs b).2.
Proof.
  induction evs as [|[upd now] evs IH]; intros b Hinv; [exact Hinv|].
  cbn [run].
  pose proof (process_update_keeps_registered upd now b Hinv) as H1.
  destruct (process_update upd now b) as [o b1]. cbn in H1.
  specialize (IH b1 H1). destruct (run evs b1) as [os b2]. exact IH.
Qed.

End ConversationInvariant.

Section ConversationTheorems.
Import Geofence Bot.
Local Open Scope string_scope.


(** An update that carries its message in [update.message], from a user
    without conversation in progress (and, from the start of the process
    on, every such update of a user absent from [user_data] is one), is
    either the /start command, which registers the user and opens the
    conversation, or is dropped with the bot unchanged. *)
Lemma message_without_conversation
    (evs : list (update * timestamp)) (b : bot) (upd : update) (now : timestamp) :
  conversations b !! conversation_key upd = None
  \/ (b = (run evs initial_bot).2
      /\ user_data (stores b) !! id (from_user upd) = None) ->
  (command upd = Some "start"
   /\ process_update upd now b
      = (Some (Returned CHECK_IN [(MsgWelcome, NoMarkup)]),
         {| conversations := <[conversation_key upd := CHECK_IN]> (conversations b);
            stores := (start upd now (stores b)).2 |}))
  \/ (command upd <> Some "start"
      /\ process_update upd now b = (None, b)).
Proof.
  intros H.
  assert (Hnone : conversations b !! conversation_key upd = None).
  { destruct H as [H|[-> Hu]]; [exact H|].
    destruct (conversations _ !! conversation_key upd) as [s|] eqn:Hc;
      [|reflexivity].
    pose proof (run_keeps_registered evs initial_bot initial_bot_registered
                  (conversation_key upd) s Hc) as [e He].
    cbn in He. congruence. }
  unfold process_update. cbv zeta. fold (conversation_key upd).
  rewrite Hnone, select_handler_none.
  destruct (decide (command upd = Some "start")) as [Hc|Hc].
  - left. split; [exact Hc|]. cbn [handler_callback].
    assert (Hs : start upd now (stores b)
                 = (Returned CHECK_IN [(MsgWelcome, NoMarkup)],
                    (start upd now (stores b)).2)) by reflexivity.
    rewrite Hs at 1. rewrite decide_False by (unfold CHECK_IN, END; lia).
    reflexivity.
  - right. split; [exact Hc | reflexivity].
Qed.


(** C10: [start] from a user already in [user_data] changes nothing, so the
    username under which attendance is recorded is the one of the first
    /start, whatever username later updates of that user carry. *)
Theorem C10_username_is_the_first_one
    (st0 : state) (first again report : update) (t1 t2 t3 : timestamp)
    (lat lon : R) :
  let u := id (from_user first) in
  let st1 := (start first t1 st0).2 in
  let st2 := (start again t2 st1).2 in
  user_data st0 !! u = None ->
  id (from_user again) = u ->
  id (from_user report) = u ->
  location report = Some (lat, lon) ->
  is_location_valid lat lon = Ok true ->
  user_data st1 !! u = Some {| entry_username := username (from_user first) |}
  /\ st2 = st1
  /\ exists (r : attendance_record) (st3 : state),
       get_location report t3 st2
       = (Returned END [(MsgRegistered, EmptyKeyboard)], st3)
       /\ attendance_records st3 = (attendance_records st0 ++ [r])%list
       /\ rec_username r = username (from_user first).
Proof.
  intros u st1 st2 Hnew Hagain Hreport Hl Hv.
  assert (H1 : user_data st1 !! u
               = Some {| entry_username := username (from_user first) |}).
  { unfold st1, start. cbv zeta. fold u. rewrite Hnew. cbn.
    apply lookup_insert_eq. }
  assert (H2 : st2 = st1).
  { unfold st2, start at 1. cbv zeta. rewrite Hagain, H1. reflexivity. }
  split; [exact H1|]. split; [exact H2|].
  rewrite H2. rewrite <- Hreport in H1.
  eexists _, _.
  split; [apply (get_location_success report t3 st1 _ lat lon H1 Hl Hv)|].
  cbn. split.
  - unfold st1, start. cbv zeta. fold u. rewrite Hnew. reflexivity.
  - reflexivity.
Qed.

End ConversationTheorems.

(** * The theorems on the scenario data *)

Section Scenarios.
Import Geofence Bot Scenario.
Local Open Scope string_scope.

Lemma alice_registered : is_Some (user_data registered !! id alice).
Proof. vm_compute. eauto. Qed.

Lemma three_texts_fail :
  Forall (fun ev => id (from_user ev.1) = id alice /\ failing ev.1) three_texts.
Proof. unfold three_texts. repeat constructor. Qed.


Lemma C4_witness_three_texts :
  attendance_records (calls get_location three_texts checked_in).2
  = attendance_records checked_in.
Proof.
  apply (C4_failures_append_nothing three_texts checked_in).
  unfold three_texts. repeat constructor.
Defined.





Lemma C9_witness_no_checkin :
  (calls get_location three_texts registered).1 !! 0%nat
  = Some (Returned GET_LOCATION [(MsgInvalidData 2, LocationKeyboard)])
  /\ attempt_counts (calls get_location (take 1 three_texts) registered).2 !! id alice
     = Some 1.
Proof.
  destruct (C9_missing_counter_counts_from_zero
              (id alice) registered three_texts alice_registered)
    with (k := 0%nat) (upd := text_from alice) (now := 102)
    as (_ & Hretry & _).
  - reflexivity.
  - exact three_texts_fail.
  - vm_compute. discriminate.
  - reflexivity.
  - apply Hretry. reflexivity.
Defined.

Lemma C10_witness_renamed :
  exists (r : attendance_record) (st3 : state),
    get_location (location_from alice_renamed center_latitude center_longitude) 102
      (start (command_from alice_renamed "start") 101 registered).2
    = (Returned END [(MsgRegistered, EmptyKeyboard)], st3)
    /\ attendance_records st3 = [r]
    /\ rec_username r = Some "alice".
Proof.
  destruct (C10_username_is_the_first_one
              initial_state (command_from alice "start")
              (command_from alice_renamed "start")
              (location_from alice_renamed center_latitude center_longitude)
              100 101 102 center_latitude center_longitude)
    as (_ & _ & H).
  - reflexivity.
  - reflexivity.
  - reflexivity.
  - reflexivity.
  - exact center_is_valid.
  - exact H.
Defined.

End Scenarios.

(** * Further properties of the validator *)

Section GeofenceFurther.
Import Geofence.
Local Open Scope R_scope.

(** X1: the distance from any point to itself is 0, without error. *)
Theorem X1_distance_to_itself_is_zero (lat lon : R) :
  distance lat lon lat lon = Ok 0.
Proof.
  rewrite distance_haversine. f_equal.
  unfold haversine_km. cbv zeta.
  assert (Ha : haversine_a lat lon lat lon = 0).
  { unfold haversine_a.
    replace ((radians lat - radians lat) / 2) with 0 by field.
    replace ((radians lon - radians lon) / 2) with 0 by field.
    rewrite sin_0. unfold Rsqr. ring. }
  rewrite Ha. replace (1 - 0) with 1 by ring.
  rewrite sqrt_0, sqrt_1, atan2_0_1. ring.
Qed.

End GeofenceFurther.

(** * Further properties of the callbacks *)

Section CallbackEffects.
Import Geofence Bot.
Local Open Scope string_scope.

(** All that [get_location] does for a sender of [user_data], by case. *)
Lemma get_location_effect (upd : update) (now : timestamp) (st : state)
    (entry : user_entry) :
  user_data st !! id (from_user upd) = Some entry ->
  let u := id (from_user upd) in
  let st' := (get_location upd now st).2 in
  let n := default 0 (attempt_counts st !! u) in
  user_data st' = user_data st
  /\ ((exists lat lon : R,
         location upd = Some (lat, lon)
         /\ is_location_valid lat lon = Ok true
         /\ (get_location upd now st).1 = Returned END [(MsgRegistered, EmptyKeyboard)]
         /\ attendance_records st'
            = (attendance_records st ++
                 [ {| rec_user_id := u; rec_username := entry_username entry;
                      rec_timestamp := now; rec_latitude := lat;
                      rec_longitude := lon |} ])%list
         /\ attempt_counts st' = <[u := 0]> (attempt_counts st))
      \/ (failing upd
          /\ attendance_records st' = attendance_records st
          /\ ((MAX_ATTEMPTS - (n + 1) > 0
               /\ (get_location upd now st).1
                  = Returned GET_LOCATION
                      [(retry_message upd (MAX_ATTEMPTS - (n + 1)), LocationKeyboard)]
               /\ attempt_counts st' = <[u := n + 1]> (attempt_counts st))
              \/ (~ MAX_ATTEMPTS - (n + 1) > 0
                  /\ (get_location upd now st).1
                     = Returned END [(exhausted_message upd, EmptyKeyboard)]
                  /\ attempt_counts st' = <[u := 0]> (attempt_counts st))))).
Proof.
  intros Hu u st' n.
  split; [apply get_location_keeps_users|].
  assert (Hcases : (exists lat lon, location upd = Some (lat, lon)
                                    /\ is_location_valid lat lon = Ok true)
                   \/ failing upd).
  { unfold failing. destruct (location upd) as [[lat lon]|]; [|right; exact I].
    destruct (is_location_valid_total lat lon) as [[] Hv]; eauto. }
  destruct Hcases as [(lat & lon & Hl & Hv)|Hf].
  - left. exists lat, lon. subst st'.
    rewrite (get_location_success upd now st entry lat lon Hu Hl Hv). cbn. auto.
  - right. split; [exact Hf|]. subst st' n.
    destruct (attempt_counts st !! u) as [m|] eqn:Hm; fold u; cbn [default].
    + rewrite (get_location_failure upd now st entry m Hu Hm Hf).
      unfold failure_answer. cbv zeta.
      destruct (decide (MAX_ATTEMPTS - (m + 1) > 0)); cbn; fold u.
      * split; [reflexivity|]. left. auto.
      * split; [reflexivity|]. right. rewrite insert_insert_eq. auto.
    + rewrite (get_location_failure_fresh upd now st entry Hu Hm Hf).
      unfold failure_answer. cbv zeta.
      destruct (decide (MAX_ATTEMPTS - (0 + 1) > 0)); cbn; fold u.
      * split; [reflexivity|]. left. rewrite insert_insert_eq. auto.
      * split; [reflexivity|]. right. rewrite !insert_insert_eq. auto.
Qed.

(** The counters after [get_location]: those before, with at most the
    sender's one rewritten. *)
Lemma get_location_counters (upd : update) (now : timestamp) (st : state) :
  attempt_counts (get_location upd now st).2 = attempt_counts st
  \/ exists v : Z,
       attempt_counts (get_location upd now st).2
       = <[id (from_user upd) := v]> (attempt_counts st)
       /\ (v = 0
           \/ (v = default 0 (attempt_counts st !! id (from_user upd)) + 1
               /\ v < MAX_ATTEMPTS)).
Proof.
  destruct (user_data st !! id (from_user upd)) as [e|] eqn:Hu.
  - right.
    destruct (get_location_effect upd now st e Hu)
      as (_ & [(lat & lon & _ & _ & _ & _ & Hc)
              | (_ & _ & [(Hlt & _ & Hc) | (_ & _ & Hc)])]).
    + exists 0. auto.
    + eexists. split; [exact Hc|]. right. split; [reflexivity | lia].
    + exists 0. auto.
  - left. rewrite get_location_unregistered by exact Hu. reflexivity.
Qed.

Lemma callback_cases (cb : callback) :
  In cb callbacks ->
  cb = start \/ cb = checkin \/ cb = get_location \/ cb = cancel.
Proof. unfold callbacks. cbn. intuition auto. Qed.

Lemma callback_keeps_bounded (cb : callback) (upd : update) (now : timestamp)
    (st : state) :
  In cb callbacks ->
  counters_bounded st ->
  counters_bounded (cb upd now st).2.
Proof.
  intros Hcb Hb.
  assert (Hset : forall v : Z,
             0 <= v < MAX_ATTEMPTS ->
             forall u c : Z,
               <[id (from_user upd) := v]> (attempt_counts st) !! u = Some c ->
               0 <= c < MAX_ATTEMPTS).
  { intros v Hv u c Hc.
    destruct (decide (u = id (from_user upd))) as [->|Hne].
    - rewrite lookup_insert_eq in Hc. congruence.
    - rewrite lookup_insert_ne in Hc by congruence. eauto. }
  destruct (callback_cases cb Hcb) as [-> | [-> | [-> | ->]]].
  - unfold start. cbv zeta. cbn. destruct (user_data st !! _); exact Hb.
  - unfold checkin, set_attempts. cbv zeta. cbn. intros u c Hc. cbn in Hc.
    apply (Hset 0) in Hc; [exact Hc | unfold MAX_ATTEMPTS; lia].
  - intros u c Hc.
    destruct (get_location_counters upd now st) as [Heq | (v & Heq & Hv)];
      rewrite Heq in Hc; [eauto|].
    apply (Hset v) in Hc; [exact Hc|].
    destruct Hv as [-> | [-> Hlt]]; [unfold MAX_ATTEMPTS; lia|].
    split; [|exact Hlt].
    destruct (attempt_counts st !! id (from_user upd)) as [m|] eqn:Hm; cbn.
    + apply Hb in Hm. lia.
    + lia.
  - exact Hb.
Qed.

Lemma callback_frames_counters (cb : callback) (upd : update) (now : timestamp)
    (st : state) (v : Z) :
  In cb callbacks ->
  id (from_user upd) <> v ->
  attempt_counts (cb upd now st).2 !! v = attempt_counts st !! v.
Proof.
  intros Hcb Hne.
  destruct (callback_cases cb Hcb) as [-> | [-> | [-> | ->]]].
  - unfold start. cbv zeta. cbn. destruct (user_data st !! _); reflexivity.
  - unfold checkin, set_attempts. cbv zeta. cbn.
    apply lookup_insert_ne. exact Hne.
  - destruct (get_location_counters upd now st) as [-> | (w & -> & _)];
      [reflexivity|].
    apply lookup_insert_ne. exact Hne.
  - reflexivity.
Qed.

Lemma callback_keeps_entry (cb : callback) (upd : update) (now : timestamp)
    (st : state) (u : Z) (entry : user_entry) :
  In cb callbacks ->
  user_data st !! u = Some entry ->
  user_data (cb upd now st).2 !! u = Some entry.
Proof.
  intros Hcb Hu.
  destruct (callback_cases cb Hcb) as [-> | [-> | [-> | ->]]].
  - unfold start. cbv zeta. cbn.
    destruct (user_data st !! id (from_user upd)) eqn:Hs; cbn; [exact Hu|].
    rewrite lookup_insert_ne; [exact Hu | congruence].
  - exact Hu.
  - rewrite get_location_keeps_users. exact Hu.
  - exact Hu.
Qed.

(** The callback the conversation runs belongs to the four. *)
Lemma selected_callback (current : option Z) (upd : update) (h : handler) :
  select_handler current upd = Some h -> In (handler_callback h) callbacks.
Proof.
  intros H. apply select_handler_cases in H
    as [[_ ->] | [_ [-> | [-> | ->]]]]; unfold callbacks; cbn; auto.
Qed.

End CallbackEffects.

(** * Further properties of runs through the conversation *)

Section RunInvariants.
Import Geofence Bot.
Local Open Scope string_scope.

(** The stores after an update: untouched, or what one of the four
    callbacks made of them. *)
Lemma process_update_stores (upd : update) (now : timestamp) (b : bot) :
  stores (process_update upd now b).2 = stores b
  \/ exists cb : callback,
       In cb callbacks
       /\ stores (process_update upd now b).2 = (cb upd now (stores b)).2.
Proof.
  unfold process_update. cbv zeta.
  destruct (select_handler _ upd) as [h|] eqn:Hsel; [|left; reflexivity].
  right. exists (handler_callback h).
  split; [apply (selected_callback _ _ _ Hsel)|].
  destruct (handler_callback h upd now (stores b)) as [[next replies|e] st'];
    reflexivity.
Qed.

(** What every callback keeps on updates of a given kind, every run of such
    updates keeps. *)
Lemma run_stores_invariant (Q : update -> Prop) (P : state -> Prop) :
  (forall (cb : callback) (upd : update) (now : timestamp) (st : state),
     In cb callbacks -> Q upd -> P st -> P (cb upd now st).2) ->
  forall (evs : list (update * timestamp)) (b : bot),
    Forall (fun ev => Q ev.1) evs ->
    P (stores b) -> P (stores (run evs b).2).
Proof.
  intros Hstep. induction evs as [|[upd now] evs IH]; intros b Hall HP;
    [exact HP|].
  apply Forall_cons in Hall as [HQ Hall]. cbn in HQ. cbn [run].
  assert (H1 : P (stores (process_update upd now b).2)).
  { destruct (process_update_stores upd now b) as [-> | (cb & Hcb & ->)]; auto. }
  destruct (process_update upd now b) as [o b1]. cbn in H1.
  specialize (IH b1 Hall H1). destruct (run evs b1) as [os b2]. exact IH.
Qed.

Lemma Forall_trivial (evs : list (update * timestamp)) :
  Forall (fun ev => (fun _ : update => True) ev.1) evs.
Proof. apply Forall_forall. intros; exact I. Qed.

(** X5: if every counter is between 0 and MAX_ATTEMPTS - 1, it is so again
    after each of the four callbacks, on any update, and after any run of
    updates through the conversation. *)
Theorem X5_counters_stay_below_limit (st : state) :
  counters_bounded st ->
  (forall (cb : callback) (upd : update) (now : timestamp),
     In cb callbacks -> counters_bounded (cb upd now st).2)
  /\ (forall (evs : list (update * timestamp)) (b : bot),
        stores b = st -> counters_bounded (stores (run evs b).2)).
Proof.
  intros Hb. split.
  - intros cb upd now Hcb. apply callback_keeps_bounded; assumption.
  - intros evs b <-.
    apply (run_stores_invariant (fun _ => True) counters_bounded);
      [|apply Forall_trivial|exact Hb].
    intros cb upd now st' Hcb _. apply callback_keeps_bounded. exact Hcb.
Qed.

(** X8: an entry of [user_data] is never rewritten nor removed: what is
    stored for a user stays stored through every callback and every run. *)
Theorem X8_user_entries_are_permanent (st : state) (u : Z) (entry : user_entry) :
  user_data st !! u = Some entry ->
  (forall (cb : callback) (upd : update) (now : timestamp),
     In cb callbacks -> user_data (cb upd now st).2 !! u = Some entry)
  /\ (forall (evs : list (update * timestamp)) (b : bot),
        stores b = st -> user_data (stores (run evs b).2) !! u = Some entry).
Proof.
  intros Hu. split.
  - intros cb upd now Hcb. apply callback_keeps_entry; assumption.
  - intros evs b <-.
    apply (run_stores_invariant (fun _ => True)
             (fun s => user_data s !! u = Some entry));
      [|apply Forall_trivial|exact Hu].
    intros cb upd now st' Hcb _. apply callback_keeps_entry. exact Hcb.
Qed.

(** X10: the counter of a user is read and written by that user's updates
    only: a callback on another sender's update, and a whole run of other
    senders' updates, leave it as it was (entry or no entry). *)
Theorem X10_other_users_counters_untouched
    (v : Z) (evs : list (update * timestamp)) (b : bot) :
  Forall (fun ev => id (from_user ev.1) <> v) evs ->
  attempt_counts (stores (run evs b).2) !! v = attempt_counts (stores b) !! v
  /\ (forall (cb : callback) (upd : update) (now : timestamp) (st : state),
        In cb callbacks -> id (from_user upd) <> v ->
        attempt_counts (cb upd now st).2 !! v = attempt_counts st !! v).
Proof.
  intros Hall. split.
  - apply (run_stores_invariant (fun upd => id (from_user upd) <> v)
             (fun s => attempt_counts s !! v = attempt_counts (stores b) !! v));
      [|exact Hall|reflexivity].
    intros cb upd now st Hcb Hne HP.
    rewrite (callback_frames_counters cb upd now st v Hcb Hne). exact HP.
  - intros cb upd now st Hcb Hne. apply callback_frames_counters; assumption.
Qed.

End RunInvariants.

Section Routing.
Import Geofence Bot.
Local Open Scope string_scope.

Lemma select_handler_checkin (upd : update) :
  command upd = Some "checkin" ->
  select_handler (Some CHECK_IN) upd = Some (CommandHandler "checkin" checkin).
Proof.
  intros Hc. unfold select_handler. rewrite states_lookup.
  rewrite decide_True by reflexivity. cbn. rewrite Hc. reflexivity.
Qed.

Lemma select_handler_location (upd : update) :
  is_Some (location upd) ->
  select_handler (Some GET_LOCATION) upd
  = Some (MessageHandler filters_LOCATION get_location).
Proof.
  intros [l Hl]. unfold select_handler. rewrite states_lookup.
  rewrite decide_False by (unfold GET_LOCATION, CHECK_IN; lia).
  rewrite decide_True by reflexivity. cbn.
  unfold filters_LOCATION. rewrite Hl. reflexivity.
Qed.

Lemma command_check (upd : update) (name : string) (cb : callback) :
  check_update (CommandHandler name cb) upd
  = if decide (command upd = Some name) then true else false.
Proof.
  cbn. destruct (command upd) as [c|].
  - destruct (decide (c = name)) as [->|Hne].
    + rewrite decide_True by reflexivity. reflexivity.
    + rewrite decide_False by congruence. reflexivity.
  - rewrite decide_False by discriminate. reflexivity.
Qed.

Lemma location_check (upd : update) :
  filters_LOCATION upd = false <-> ~ is_Some (location upd).
Proof.
  unfold filters_LOCATION. destruct (location upd) as [l|]; split; intros H.
  - discriminate.
  - exfalso. apply H. eauto.
  - intros [x Hx]. discriminate.
  - reflexivity.
Qed.

(** X6: inside a conversation the table lets three kinds of update through:
    /checkin while the check-in command is awaited, a message with a
    location while the location is awaited, and /cancel.  Every other
    update (a text or a photo while the location is awaited, /start again,
    a location before /checkin, ...) is dropped: no reply, no attempt
    counted, nothing changed. *)
Theorem X6_other_updates_are_dropped
    (b : bot) (upd : update) (now : timestamp) (s : Z) :
  conversations b !! conversation_key upd = Some s ->
  command upd <> Some "cancel" ->
  ~ (s = CHECK_IN /\ command upd = Some "checkin") ->
  ~ (s = GET_LOCATION /\ is_Some (location upd)) ->
  process_update upd now b = (None, b).
Proof.
  intros Hs Hcancel Hcheckin Hloc.
  unfold process_update. cbv zeta. fold (conversation_key upd). rewrite Hs.
  assert (Hsel : select_handler (Some s) upd = None).
  { unfold select_handler. rewrite states_lookup. unfold fallbacks.
    assert (Hfb : List.find (fun h => check_update h upd)
                    [CommandHandler "cancel" cancel] = None).
    { cbn [List.find]. rewrite command_check.
      rewrite decide_False by exact Hcancel. reflexivity. }
    destruct (decide (s = CHECK_IN)) as [->|H1].
    - cbn [List.find]. rewrite command_check.
      rewrite decide_False by (intros Hc; apply Hcheckin; auto).
      exact Hfb.
    - destruct (decide (s = GET_LOCATION)) as [->|H2].
      + cbn [List.find check_update].
        assert (Hf : filters_LOCATION upd = false).
        { apply location_check. intros Hl. apply Hloc. auto. }
        rewrite Hf. exact Hfb.
      + exact Hfb. }
  rewrite Hsel. reflexivity.
Qed.

Lemma callback_keeps_counter_entries (cb : callback) (upd : update)
    (now : timestamp) (st : state) (u : Z) :
  In cb callbacks ->
  is_Some (attempt_counts st !! u) ->
  is_Some (attempt_counts (cb upd now st).2 !! u).
Proof.
  intros Hcb Hu.
  destruct (callback_cases cb Hcb) as [-> | [-> | [-> | ->]]].
  - unfold start. cbv zeta. cbn. destruct (user_data st !! _); exact Hu.
  - unfold checkin, set_attempts. cbv zeta. cbn.
    apply lookup_insert_is_Some'. auto.
  - destruct (get_location_counters upd now st) as [-> | (w & -> & _)];
      [exact Hu|].
    apply lookup_insert_is_Some'. auto.
  - exact Hu.
Qed.

Lemma callback_keeps_registration (cb : callback) (upd : update)
    (now : timestamp) (st : state) (u : Z) :
  In cb callbacks ->
  is_Some (user_data st !! u) ->
  is_Some (user_data (cb upd now st).2 !! u).
Proof.
  intros Hcb [e He]. exists e. apply callback_keeps_entry; assumption.
Qed.

(** One step of the conversation keeps [conversations_live] when the new
    state of the key, if any, is a proper one. *)
Lemma live_step (b : bot) (key : Z * Z) (cb : callback) (upd : update)
    (now : timestamp) (convs' : gmap (Z * Z) Z) :
  conversations_live b ->
  In cb callbacks ->
  (forall k s,
     convs' !! k = Some s ->
     conversations b !! k = Some s
     \/ (k = key
         /\ (s = CHECK_IN \/ s = GET_LOCATION)
         /\ is_Some (user_data (cb upd now (stores b)).2 !! key.2)
         /\ (s = GET_LOCATION
             -> is_Some (attempt_counts (cb upd now (stores b)).2 !! key.2)))) ->
  conversations_live
    {| conversations := convs'; stores := (cb upd now (stores b)).2 |}.
Proof.
  intros Hinv Hcb Hsub k s Hk. cbn [conversations stores] in *.
  destruct (Hsub k s Hk) as [Hold | (-> & Hs & Hu & Hc)]; [|auto].
  destruct (Hinv k s Hold) as (Hs & Hu & Hc).
  split; [exact Hs|]. split.
  - apply (callback_keeps_registration cb upd now (stores b)); assumption.
  - intros Hg.
    apply (callback_keeps_counter_entries cb upd now (stores b)); auto.
Qed.

Lemma process_update_keeps_live (upd : update) (now : timestamp) (b : bot) :
  conversations_live b -> conversations_live (process_update upd now b).2.
Proof.
  intros Hinv. unfold process_update. cbv zeta.
  set (key := (chat_id upd, id (from_user upd))).
  destruct (select_handler (conversations b !! key) upd) as [h|] eqn:Hsel;
    [|exact Hinv].
  apply select_handler_cases in Hsel
    as [[Hnone ->] | [[s0 Hsome] [-> | [-> | ->]]]]; cbn [handler_callback].
  - assert (Hs : start upd now (stores b)
                 = (Returned CHECK_IN [(MsgWelcome, NoMarkup)],
                    (start upd now (stores b)).2)) by reflexivity.
    rewrite Hs. clear Hs.
    rewrite decide_False by (unfold CHECK_IN, END; lia).
    apply (live_step b key start); [exact Hinv | unfold callbacks; cbn; auto|].
    intros k s Hk. destruct (decide (k = key)) as [->|Hne].
    + rewrite lookup_insert_eq in Hk. injection Hk as <-. right.
      split; [reflexivity|]. split; [auto|]. split.
      * apply start_registers. left. reflexivity.
      * unfold CHECK_IN, GET_LOCATION. lia.
    + rewrite lookup_insert_ne in Hk by congruence. auto.
  - assert (Hs : checkin upd now (stores b)
                 = (Returned GET_LOCATION [(MsgShareLocation, LocationKeyboard)],
                    (checkin upd now (stores b)).2)) by reflexivity.
    rewrite Hs. clear Hs.
    rewrite decide_False by (unfold GET_LOCATION, END; lia).
    apply (live_step b key checkin); [exact Hinv | unfold callbacks; cbn; auto|].
    intros k s Hk. destruct (decide (k = key)) as [->|Hne].
    + rewrite lookup_insert_eq in Hk. injection Hk as <-. right.
      destruct (Hinv key s0 Hsome) as (_ & Hu & _).
      split; [reflexivity|]. split; [auto|]. split; [exact Hu|].
      intros _. unfold checkin, set_attempts. cbn.
      rewrite lookup_insert_eq. eauto.
    + rewrite lookup_insert_ne in Hk by congruence. auto.
  - destruct (Hinv key s0 Hsome) as (_ & [e He] & _). cbn in He.
    pose proof (get_location_effect upd now (stores b) e He) as (Hu & Heff).
    assert (Hcb : In get_location callbacks) by (unfold callbacks; cbn; auto).
    assert (Hcount : is_Some (attempt_counts (get_location upd now (stores b)).2
                                !! id (from_user upd))).
    { destruct Heff as [(lat & lon & _ & _ & _ & _ & ->)
                       | (_ & _ & [(_ & _ & ->) | (_ & _ & ->)])];
        rewrite lookup_insert_eq; eauto. }
    assert (Hout : exists next replies,
               (get_location upd now (stores b)).1 = Returned next replies
               /\ (next = END \/ next = GET_LOCATION)).
    { destruct Heff as [(lat & lon & _ & _ & -> & _)
                       | (_ & _ & [(_ & -> & _) | (_ & -> & _)])]; eauto. }
    destruct Hout as (next & replies & Ho & Hnext).
    rewrite (surjective_pairing (get_location upd now (stores b))), Ho.
    apply (live_step b key get_location); [exact Hinv | exact Hcb |].
    intros k s Hk.
    destruct Hnext as [-> | ->].
    + rewrite decide_True in Hk by reflexivity.
      destruct (decide (k = key)) as [->|Hne].
      * rewrite lookup_delete_eq in Hk. discriminate.
      * rewrite lookup_delete_ne in Hk by congruence. auto.
    + rewrite decide_False in Hk by (unfold GET_LOCATION, END; lia).
      destruct (decide (k = key)) as [->|Hne].
      * rewrite lookup_insert_eq in Hk. injection Hk as <-. right.
        split; [reflexivity|]. split; [auto|]. split.
        -- rewrite Hu. cbn. eauto.
        -- intros _. exact Hcount.
      * rewrite lookup_insert_ne in Hk by congruence. auto.
  - unfold cancel. rewrite decide_True by reflexivity.
    apply (live_step b key cancel upd now);
      [exact Hinv | unfold callbacks; cbn; auto|].
    intros k s Hk. destruct (decide (k = key)) as [->|Hne].
    + rewrite lookup_delete_eq in Hk. discriminate.
    + rewrite lookup_delete_ne in Hk by congruence. auto.
Qed.

(** X9: from the start of the process on, whatever updates arrive, every
    conversation kept is in CHECK_IN or GET_LOCATION (no other state is
    ever stored), its user is in [user_data], and while the location is
    awaited the user's counter has an entry. *)
Theorem X9_conversations_stay_live (evs : list (update * timestamp)) :
  conversations_live (run evs initial_bot).2.
Proof.
  assert (H0 : conversations_live initial_bot).
  { intros k s Hk. cbn in Hk. rewrite lookup_empty in Hk. discriminate. }
  revert H0. generalize initial_bot.
  induction evs as [|[upd now] evs IH]; intros b Hinv; [exact Hinv|].
  cbn [run].
  pose proof (process_update_keeps_live upd now b Hinv) as H1.
  destruct (process_update upd now b) as [o b1]. cbn in H1.
  specialize (IH b1 H1). destruct (run evs b1) as [os b2]. exact IH.
Qed.

End Routing.

(** * Further properties of the records *)

Section Ledger.
Import Geofence Bot.
Local Open Scope string_scope.

Lemma record_sound_mono (st st' : state) (r : attendance_record) :
  (forall u e, user_data st !! u = Some e -> user_data st' !! u = Some e) ->
  record_sound st r -> record_sound st' r.
Proof. intros Hm (Hv & e & He & Hn). split; [exact Hv|]. eauto. Qed.

(** What one callback adds to the records: nothing, or one sound record. *)
Lemma callback_ledger (cb : callback) (upd : update) (now : timestamp)
    (st : state) :
  In cb callbacks ->
  exists new : list attendance_record,
    attendance_records (cb upd now st).2 = (attendance_records st ++ new)%list
    /\ Forall (record_sound (cb upd now st).2) new
    /\ (length new <= 1)%nat.
Proof.
  intros Hcb.
  assert (Hnone : attendance_records (cb upd now st).2 = attendance_records st ->
                  exists new : list attendance_record,
                    attendance_records (cb upd now st).2
                    = (attendance_records st ++ new)%list
                    /\ Forall (record_sound (cb upd now st).2) new
                    /\ (length new <= 1)%nat).
  { intros ->. exists []. rewrite app_nil_r. cbn. auto. }
  destruct (callback_cases cb Hcb) as [-> | [-> | [-> | ->]]].
  - apply Hnone. unfold start. cbv zeta. cbn.
    destruct (user_data st !! _); reflexivity.
  - apply Hnone. reflexivity.
  - destruct (user_data st !! id (from_user upd)) as [e|] eqn:Hu.
    + destruct (get_location_effect upd now st e Hu)
        as (Hud & [(lat & lon & _ & Hv & _ & Hrec & _) | (_ & Hrec & _)]).
      * eexists. split; [exact Hrec|]. split; [|cbn; lia].
        constructor; [|constructor].
        split; [exact Hv|]. exists e. cbn. rewrite Hud. auto.
      * apply Hnone. exact Hrec.
    + apply Hnone. rewrite get_location_unregistered by exact Hu. reflexivity.
  - apply Hnone. reflexivity.
Qed.

Lemma run_keeps_entries (evs : list (update * timestamp)) (b : bot)
    (u : Z) (e : user_entry) :
  user_data (stores b) !! u = Some e ->
  user_data (stores (run evs b).2) !! u = Some e.
Proof.
  intros Hu.
  apply (run_stores_invariant (fun _ => True)
           (fun s => user_data s !! u = Some e));
    [|apply Forall_trivial|exact Hu].
  intros cb upd now st' Hcb _. apply callback_keeps_entry. exact Hcb.
Qed.

(** X7: through any run of updates, [attendance_records] only grows at its
    end, by at most one record per update, and every record added carries
    coordinates the validator accepts, the id of a user of [user_data] and
    the username stored for that user. *)
Theorem X7_records_only_grow_and_are_sound
    (evs : list (update * timestamp)) (b : bot) :
  exists new : list attendance_record,
    attendance_records (stores (run evs b).2)
    = (attendance_records (stores b) ++ new)%list
    /\ Forall (record_sound (stores (run evs b).2)) new
    /\ (length new <= length evs)%nat.
Proof.
  revert b. induction evs as [|[upd now] evs IH]; intros b.
  - exists []. cbn. rewrite app_nil_r. auto.
  - assert (H1 : exists new1 : list attendance_record,
               attendance_records (stores (process_update upd now b).2)
               = (attendance_records (stores b) ++ new1)%list
               /\ Forall (record_sound (stores (process_update upd now b).2)) new1
               /\ (length new1 <= 1)%nat).
    { destruct (process_update_stores upd now b) as [-> | (cb & Hcb & ->)].
      - exists []. rewrite app_nil_r. cbn. auto.
      - apply callback_ledger. exact Hcb. }
    destruct H1 as (new1 & Hrec1 & Hsound1 & Hlen1).
    cbn [run].
    destruct (process_update upd now b) as [o b1]. cbn in Hrec1, Hsound1.
    destruct (IH b1) as (new2 & Hrec2 & Hsound2 & Hlen2).
    pose proof (fun u e => run_keeps_entries evs b1 u e) as Hmono.
    destruct (run evs b1) as [os b2]. cbn in *.
    exists (new1 ++ new2)%list. split; [|split].
    + rewrite Hrec2, Hrec1, app_assoc. reflexivity.
    + apply Forall_app. split; [|exact Hsound2].
      eapply Forall_impl; [exact Hsound1|].
      intros r. apply record_sound_mono. exact Hmono.
    + rewrite length_app. lia.
Qed.

(** X12: the records are not deduplicated.  Accepted reports of registered
    users, handled one after the other, each end with the success message
    and add one record each, in the order of arrival: the same user can be
    recorded any number of times. *)
Theorem X12_every_accepted_report_is_recorded
    (evs : list (update * timestamp)) (st : state) :
  Forall (fun ev => accepted st ev.1) evs ->
  exists new : list attendance_record,
    attendance_records (calls get_location evs st).2
    = (attendance_records st ++ new)%list
    /\ map rec_user_id new = map (fun ev => id (from_user ev.1)) evs
    /\ map rec_timestamp new = map snd evs
    /\ Forall (fun o => o = Returned END [(MsgRegistered, EmptyKeyboard)])
         (calls get_location evs st).1.
Proof.
  assert (Hgen : forall st0 : state,
             user_data st0 = user_data st ->
             Forall (fun ev => accepted st ev.1) evs ->
             exists new : list attendance_record,
               attendance_records (calls get_location evs st0).2
               = (attendance_records st0 ++ new)%list
               /\ map rec_user_id new = map (fun ev => id (from_user ev.1)) evs
               /\ map rec_timestamp new = map snd evs
               /\ Forall (fun o => o = Returned END [(MsgRegistered, EmptyKeyboard)])
                    (calls get_location evs st0).1).
  { induction evs as [|[upd now] evs IH]; intros st0 Hud Hall.
    - exists []. cbn. rewrite app_nil_r. auto.
    - apply Forall_cons in Hall as [[[e He] Hacc] Hall]. cbn in He, Hacc.
      destruct (location upd) as [[lat lon]|] eqn:Hl; [|contradiction].
      rewrite <- Hud in He.
      cbn [calls].
      rewrite (get_location_success upd now st0 e lat lon He Hl Hacc).
      match goal with
      | |- context [calls get_location evs ?s1] =>
          destruct (IH s1 Hud Hall) as (new & Hrec & Hids & Hts & Houts);
          destruct (calls get_location evs s1) as [os st2]
      end.
      cbn in *.
      eexists (_ :: new). split; [|split; [|split]].
      + rewrite Hrec, <- app_assoc. reflexivity.
      + cbn. rewrite Hids. reflexivity.
      + cbn. rewrite Hts. reflexivity.
      + constructor; [reflexivity | exact Houts]. }
  intros Hall. apply Hgen; [reflexivity | exact Hall].
Qed.

End Ledger.

(** * Whole sessions through the conversation *)

Section Sessions.
Import Geofence Bot.
Local Open Scope string_scope.

Lemma process_start (upd : update) (now : timestamp) (b : bot) :
  conversations b !! conversation_key upd = None ->
  command upd = Some "start" ->
  process_update upd now b
  = (Some (Returned CHECK_IN [(MsgWelcome, NoMarkup)]),
     {| conversations := <[conversation_key upd := CHECK_IN]> (conversations b);
        stores := (start upd now (stores b)).2 |}).
Proof.
  intros Hnone Hc. unfold process_update. cbv zeta. fold (conversation_key upd).
  rewrite Hnone, select_handler_none, decide_True by exact Hc.
  cbn [handler_callback].
  assert (Hs : start upd now (stores b)
               = (Returned CHECK_IN [(MsgWelcome, NoMarkup)],
                  (start upd now (stores b)).2)) by reflexivity.
  rewrite Hs at 1. rewrite decide_False by (unfold CHECK_IN, END; lia).
  reflexivity.
Qed.

Lemma process_checkin (upd : update) (now : timestamp) (b : bot) :
  conversations b !! conversation_key upd = Some CHECK_IN ->
  command upd = Some "checkin" ->
  process_update upd now b
  = (Some (Returned GET_LOCATION [(MsgShareLocation, LocationKeyboard)]),
     {| conversations := <[conversation_key upd := GET_LOCATION]> (conversations b);
        stores := set_attempts (id (from_user upd)) 0 (stores b) |}).
Proof.
  intros Hs Hc. unfold process_update. cbv zeta. fold (conversation_key upd).
  rewrite Hs, (select_handler_checkin upd Hc). cbn [handler_callback].
  unfold checkin. cbv zeta.
  rewrite decide_False by (unfold GET_LOCATION, END; lia).
  reflexivity.
Qed.

Lemma process_location (upd : update) (now : timestamp) (b : bot) :
  conversations b !! conversation_key upd = Some GET_LOCATION ->
  is_Some (location upd) ->
  process_update upd now b
  = match get_location upd now (stores b) with
    | (Returned next replies, st) =>
        (Some (Returned next replies),
         {| conversations :=
              if decide (next = END)
              then delete (conversation_key upd) (conversations b)
              else <[conversation_key upd := next]> (conversations b);
            stores := st |})
    | (Raised e, st) =>
        (Some (Raised e), {| conversations := conversations b; stores := st |})
    end.
Proof.
  intros Hs Hl. unfold process_update. cbv zeta. fold (conversation_key upd).
  rewrite Hs, (select_handler_location upd Hl). reflexivity.
Qed.

Lemma key_sender (upd upd' : update) :
  conversation_key upd = conversation_key upd' ->
  id (from_user upd) = id (from_user upd').
Proof. unfold conversation_key. intros H. injection H. auto. Qed.

(** X11: a whole successful session.  For a (chat, user) pair without
    conversation, /start, then /checkin, then a location the validator
    accepts are answered by the welcome text, the location prompt and the
    success message; afterwards the pair has no conversation again, the
    other conversations are as before, the user's counter is 0, and exactly
    one record was added, with the user's id, the reported coordinates, the
    time of the report and the username stored for the user. *)
Theorem X11_start_checkin_location_records_attendance
    (b : bot) (s_upd c_upd l_upd : update) (t1 t2 t3 : timestamp) (lat lon : R) :
  conversations b !! conversation_key s_upd = None ->
  conversation_key c_upd = conversation_key s_upd ->
  conversation_key l_upd = conversation_key s_upd ->
  command s_upd = Some "start" ->
  command c_upd = Some "checkin" ->
  location l_upd = Some (lat, lon) ->
  is_location_valid lat lon = Ok true ->
  exists (b' : bot) (entry : user_entry),
    run [(s_upd, t1); (c_upd, t2); (l_upd, t3)] b
    = ([Some (Returned CHECK_IN [(MsgWelcome, NoMarkup)]);
        Some (Returned GET_LOCATION [(MsgShareLocation, LocationKeyboard)]);
        Some (Returned END [(MsgRegistered, EmptyKeyboard)])], b')
    /\ conversations b' = conversations b
    /\ user_data (stores b') !! id (from_user s_upd) = Some entry
    /\ attendance_records (stores b')
       = (attendance_records (stores b) ++
            [ {| rec_user_id := id (from_user s_upd);
                 rec_username := entry_username entry;
                 rec_timestamp := t3;
                 rec_latitude := lat;
                 rec_longitude := lon |} ])%list
    /\ attempt_counts (stores b') !! id (from_user s_upd) = Some 0.
Proof.
  intros Hnone Hkc Hkl Hs Hc Hl Hv.
  pose proof (key_sender _ _ Hkc) as Huc.
  pose proof (key_sender _ _ Hkl) as Hul.
  set (key := conversation_key s_upd) in *.
  set (st1 := (start s_upd t1 (stores b)).2).
  assert (Hrec1 : attendance_records st1 = attendance_records (stores b)).
  { unfold st1, start. cbv zeta. cbn.
    destruct (user_data (stores b) !! id (from_user s_upd)); reflexivity. }
  assert (Hreg : is_Some (user_data st1 !! id (from_user s_upd))).
  { apply start_registers. left. reflexivity. }
  destruct Hreg as [entry Hentry].
  set (b1 := {| conversations := <[key := CHECK_IN]> (conversations b);
                stores := st1 |}).
  set (st2 := set_attempts (id (from_user c_upd)) 0 st1).
  set (b2 := {| conversations := <[key := GET_LOCATION]> (conversations b1);
                stores := st2 |}).
  assert (H1 : process_update s_upd t1 b
               = (Some (Returned CHECK_IN [(MsgWelcome, NoMarkup)]), b1)).
  { apply process_start; assumption. }
  assert (H2 : process_update c_upd t2 b1
               = (Some (Returned GET_LOCATION [(MsgShareLocation, LocationKeyboard)]),
                  b2)).
  { unfold b2, st2. rewrite <- Hkc. apply process_checkin; [|exact Hc].
    rewrite Hkc. unfold b1. cbn. apply lookup_insert_eq. }
  assert (Hentry2 : user_data st2 !! id (from_user l_upd) = Some entry).
  { rewrite Hul. exact Hentry. }
  assert (H3 : process_update l_upd t3 b2
               = match get_location l_upd t3 st2 with
                 | (Returned next replies, st) =>
                     (Some (Returned next replies),
                      {| conversations :=
                           if decide (next = END)
                           then delete (conversation_key l_upd) (conversations b2)
                           else <[conversation_key l_upd := next]> (conversations b2);
                         stores := st |})
                 | (Raised e, st) =>
                     (Some (Raised e),
                      {| conversations := conversations b2; stores := st |})
                 end).
  { apply process_location; [|rewrite Hl; eauto].
    rewrite Hkl. unfold b2. cbn. apply lookup_insert_eq. }
  rewrite (get_location_success l_upd t3 st2 entry lat lon Hentry2 Hl Hv) in H3.
  rewrite decide_True in H3 by reflexivity.
  cbn [run]. rewrite H1, H2, H3. clear H1 H2 H3. clearbody st1.
  eexists _, entry. split; [reflexivity|]. cbn.
  split; [|split; [|split]].
  - rewrite Hkl. fold key. rewrite delete_insert_eq.
    apply delete_insert_id. exact Hnone.
  - exact Hentry.
  - rewrite Hrec1, Hul. reflexivity.
  - rewrite Hul. apply lookup_insert_eq.
Qed.

End Sessions.

Section RefusedSessions.
Import Geofence Bot.
Local Open Scope string_scope.

(** A refused location while the location is awaited, through the
    conversation. *)
Lemma process_refused (upd : update) (now : timestamp) (b : bot)
    (entry : user_entry) (n : Z) :
  conversations b !! conversation_key upd = Some GET_LOCATION ->
  user_data (stores b) !! id (from_user upd) = Some entry ->
  attempt_counts (stores b) !! id (from_user upd) = Some n ->
  refused upd ->
  process_update upd now b
  = if decide (MAX_ATTEMPTS - (n + 1) > 0) then
      (Some (Returned GET_LOCATION
               [(MsgOutside (MAX_ATTEMPTS - (n + 1)), LocationKeyboard)]),
       {| conversations := <[conversation_key upd := GET_LOCATION]> (conversations b);
          stores := set_attempts (id (from_user upd)) (n + 1) (stores b) |})
    else
      (Some (Returned END [(MsgOutsideExhausted, EmptyKeyboard)]),
       {| conversations := delete (conversation_key upd) (conversations b);
          stores := set_attempts (id (from_user upd)) 0
                      (set_attempts (id (from_user upd)) (n + 1) (stores b)) |}).
Proof.
  intros Hs Hu Hn Hr.
  assert (Hl : is_Some (location upd)).
  { unfold refused in Hr. destruct (location upd); [eauto | contradiction]. }
  assert (Hf : failing upd).
  { unfold refused in Hr. unfold failing.
    destruct (location upd) as [[lat lon]|]; [exact Hr | exact I]. }
  rewrite (process_location upd now b Hs Hl).
  rewrite (get_location_failure upd now (stores b) entry n Hu Hn Hf).
  unfold failure_answer, retry_message, exhausted_message. cbv zeta.
  destruct Hl as [l ->].
  destruct (decide (MAX_ATTEMPTS - (n + 1) > 0)).
  - rewrite decide_False by (unfold GET_LOCATION, END; lia). reflexivity.
  - rewrite decide_True by reflexivity. reflexivity.
Qed.

(** X13: a whole refused session.  While the location is awaited and the
    counter is 0, three locations the validator refuses, sent in the same
    conversation, are answered by the retry prompt with 2 and then 1
    attempts left and by the final refusal; afterwards the conversation is
    removed, the counter is 0 again, and users and records are as before. *)
Theorem X13_three_refused_locations_end_the_session
    (b : bot) (u1 u2 u3 : update) (t1 t2 t3 : timestamp) :
  conversations b !! conversation_key u1 = Some GET_LOCATION ->
  is_Some (user_data (stores b) !! id (from_user u1)) ->
  attempt_counts (stores b) !! id (from_user u1) = Some 0 ->
  conversation_key u2 = conversation_key u1 ->
  conversation_key u3 = conversation_key u1 ->
  refused u1 -> refused u2 -> refused u3 ->
  exists b' : bot,
    run [(u1, t1); (u2, t2); (u3, t3)] b
    = ([Some (Returned GET_LOCATION [(MsgOutside 2, LocationKeyboard)]);
        Some (Returned GET_LOCATION [(MsgOutside 1, LocationKeyboard)]);
        Some (Returned END [(MsgOutsideExhausted, EmptyKeyboard)])], b')
    /\ conversations b' = delete (conversation_key u1) (conversations b)
    /\ user_data (stores b') = user_data (stores b)
    /\ attendance_records (stores b') = attendance_records (stores b)
    /\ attempt_counts (stores b')
       = <[id (from_user u1) := 0]> (attempt_counts (stores b)).
Proof.
  intros Hs [entry Hu] Hn Hk2 Hk3 Hr1 Hr2 Hr3.
  pose proof (key_sender _ _ Hk2) as Hs2.
  pose proof (key_sender _ _ Hk3) as Hs3.
  set (key := conversation_key u1) in *.
  set (u := id (from_user u1)) in *.
  set (b1 := {| conversations := <[key := GET_LOCATION]> (conversations b);
                stores := set_attempts u 1 (stores b) |}).
  set (b2 := {| conversations := <[key := GET_LOCATION]> (conversations b1);
                stores := set_attempts u 2 (stores b1) |}).
  assert (H1 : process_update u1 t1 b
               = (Some (Returned GET_LOCATION [(MsgOutside 2, LocationKeyboard)]), b1)).
  { rewrite (process_refused u1 t1 b entry 0 Hs Hu Hn Hr1).
    rewrite decide_True by (unfold MAX_ATTEMPTS; lia). reflexivity. }
  assert (H2 : process_update u2 t2 b1
               = (Some (Returned GET_LOCATION [(MsgOutside 1, LocationKeyboard)]), b2)).
  { rewrite (process_refused u2 t2 b1 entry 1).
    - rewrite decide_True by (unfold MAX_ATTEMPTS; lia).
      rewrite Hk2, Hs2. reflexivity.
    - rewrite Hk2. unfold b1. cbn. apply lookup_insert_eq.
    - rewrite Hs2. exact Hu.
    - rewrite Hs2. unfold b1, set_attempts. cbn. apply lookup_insert_eq.
    - exact Hr2. }
  assert (H3 : process_update u3 t3 b2
               = (Some (Returned END [(MsgOutsideExhausted, EmptyKeyboard)]),
                  {| conversations := delete key (conversations b2);
                     stores := set_attempts u 0 (set_attempts u 3 (stores b2)) |})).
  { rewrite (process_refused u3 t3 b2 entry 2).
    - rewrite decide_False by (unfold MAX_ATTEMPTS; lia).
      rewrite Hk3, Hs3. reflexivity.
    - rewrite Hk3. unfold b2. cbn. apply lookup_insert_eq.
    - rewrite Hs3. exact Hu.
    - rewrite Hs3. unfold b2, set_attempts. cbn. apply lookup_insert_eq.
    - exact Hr3. }
  cbn [run]. rewrite H1, H2, H3.
  eexists. split; [reflexivity|]. unfold b2, b1, set_attempts. cbn.
  split; [|split; [|split]]; try reflexivity.
  - rewrite !delete_insert_eq. reflexivity.
  - rewrite !insert_insert_eq. reflexivity.
Qed.

End RefusedSessions.

Section Edges.
Import Geofence Bot.
Local Open Scope string_scope.

(** The validator raises nothing but the domain error of [math.sqrt]. *)
Lemma is_location_valid_raises (lat lon : R) (e : exn) :
  is_location_valid lat lon = Raise e -> e = ValueError.
Proof.
  unfold is_location_valid, distance, math_sqrt. cbv zeta.
  repeat (destruct (Rlt_dec _ _); cbn); congruence.
Qed.

(** X14: for an update that carries its message, [get_location] raises
    [KeyError] exactly when the sender is not in [user_data] (the unguarded
    lookup of the username; the lookups of the counter are guarded), and
    then nothing has been written: the stores are the ones of before the
    call. *)
Theorem X14_key_error_exactly_for_unknown_sender
    (upd : update) (now : timestamp) (st : state) :
  ((get_location upd now st).1 = Raised KeyError
   <-> user_data st !! id (from_user upd) = None)
  /\ (user_data st !! id (from_user upd) = None ->
      get_location upd now st = (Raised KeyError, st)).
Proof.
  split; [|apply get_location_unregistered].
  split; [|intros Hu; rewrite (get_location_unregistered upd now st Hu); reflexivity].
  intros H.
  destruct (user_data st !! id (from_user upd)) as [entry|] eqn:Hu;
    [exfalso | reflexivity].
  unfold get_location, count_failure in H. cbv zeta in H. rewrite Hu in H.
  destruct (attempt_counts st !! id (from_user upd)) eqn:Hn;
    destruct (location upd) as [[lat lon]|];
    try (destruct (is_location_valid lat lon) as [[]|e] eqn:Hv);
    cbn in H; rewrite ?Hn, ?lookup_insert_eq in H;
    try (destruct (decide _)); cbn in H; try discriminate;
    apply is_location_valid_raises in Hv; congruence.
Qed.

(** X15: the counter belongs to the user, not to the conversation.  A
    /checkin of a user in one chat puts that user's counter at 0 and leaves
    the conversations of every other chat as they are; a conversation of the
    same user elsewhere that awaits a location goes on with a fresh
    counter. *)
Theorem X15_checkin_elsewhere_resets_the_shared_counter
    (b : bot) (upd : update) (now : timestamp) (k : Z * Z) (s : Z) :
  conversations b !! conversation_key upd = Some CHECK_IN ->
  command upd = Some "checkin" ->
  k <> conversation_key upd ->
  k.2 = id (from_user upd) ->
  conversations b !! k = Some s ->
  conversations (process_update upd now b).2 !! k = Some s
  /\ attempt_counts (stores (process_update upd now b).2) !! k.2 = Some 0.
Proof.
  intros Hs Hc Hne Hk Hold.
  rewrite (process_checkin upd now b Hs Hc). cbn. split.
  - rewrite lookup_insert_ne by congruence. exact Hold.
  - rewrite Hk. apply lookup_insert_eq.
Qed.

End Edges.

(** * The further properties on the scenario data *)

Section FurtherScenarios.
Import Geofence Bot Scenario.
Local Open Scope string_scope.

Lemma awaiting_location_counters :
  attempt_counts (stores awaiting_location) = {[ 1001 := 0 ]}.
Proof. reflexivity. Qed.

Lemma X5_witness_bob_session :
  counters_bounded (stores (run bob_session awaiting_location).2).
Proof.
  destruct (X5_counters_stay_below_limit (stores awaiting_location)) as [_ H].
  - intros u c Hc. rewrite awaiting_location_counters in Hc.
    apply lookup_singleton_Some in Hc as [_ <-]. unfold MAX_ATTEMPTS. lia.
  - apply (H bob_session awaiting_location). reflexivity.
Defined.

Lemma X6_witness_text_is_dropped :
  process_update (text_from alice) 105 awaiting_location = (None, awaiting_location).
Proof.
  apply (X6_other_updates_are_dropped awaiting_location (text_from alice) 105
           GET_LOCATION).
  - reflexivity.
  - discriminate.
  - intros [H _]. discriminate H.
  - intros [_ [l Hl]]. discriminate Hl.
Defined.

Lemma X8_witness_alice_stays :
  user_data
    (stores (run ((command_from alice_renamed "start", 120) :: bob_session)
               awaiting_location).2) !! 1001
  = Some {| entry_username := Some "alice" |}.
Proof.
  destruct (X8_user_entries_are_permanent (stores awaiting_location) 1001
              {| entry_username := Some "alice" |}) as [_ H].
  - reflexivity.
  - apply H. reflexivity.
Defined.

Lemma X10_witness_bob_session :
  attempt_counts (stores (run bob_session awaiting_location).2) !! 1001 = Some 0.
Proof.
  destruct (X10_other_users_counters_untouched 1001 bob_session awaiting_location)
    as [H _].
  - unfold bob_session. repeat constructor; cbn; lia.
  - rewrite H. reflexivity.
Defined.

Lemma X11_witness_alice_session :
  exists (b' : bot) (entry : user_entry),
    run [(command_from alice "start", 100); (command_from alice "checkin", 101);
         (location_from alice center_latitude center_longitude, 102)] initial_bot
    = ([Some (Returned CHECK_IN [(MsgWelcome, NoMarkup)]);
        Some (Returned GET_LOCATION [(MsgShareLocation, LocationKeyboard)]);
        Some (Returned END [(MsgRegistered, EmptyKeyboard)])], b')
    /\ conversations b' = conversations initial_bot
    /\ user_data (stores b') !! 1001 = Some entry
    /\ attendance_records (stores b')
       = (attendance_records (stores initial_bot) ++
            [ {| rec_user_id := 1001;
                 rec_username := entry_username entry;
                 rec_timestamp := 102;
                 rec_latitude := center_latitude;
                 rec_longitude := center_longitude |} ])%list
    /\ attempt_counts (stores b') !! 1001 = Some 0.
Proof.
  apply (X11_start_checkin_location_records_attendance
           initial_bot (command_from alice "start") (command_from alice "checkin")
           (location_from alice center_latitude center_longitude)
           100 101 102 center_latitude center_longitude).
  - reflexivity.
  - reflexivity.
  - reflexivity.
  - reflexivity.
  - reflexivity.
  - reflexivity.
  - exact center_is_valid.
Defined.

Lemma X12_witness_two_reports :
  exists new : list attendance_record,
    attendance_records (calls get_location two_reports checked_in).2
    = (attendance_records checked_in ++ new)%list
    /\ map rec_user_id new = [1001; 1001]
    /\ map rec_timestamp new = [102; 103]
    /\ Forall (fun o => o = Returned END [(MsgRegistered, EmptyKeyboard)])
         (calls get_location two_reports checked_in).1.
Proof.
  apply (X12_every_accepted_report_is_recorded two_reports checked_in).
  unfold two_reports.
  repeat constructor; try (vm_compute; eauto); exact center_is_valid.
Defined.

Lemma X13_witness_three_far_reports :
  exists b' : bot,
    run three_far_reports awaiting_location
    = ([Some (Returned GET_LOCATION [(MsgOutside 2, LocationKeyboard)]);
        Some (Returned GET_LOCATION [(MsgOutside 1, LocationKeyboard)]);
        Some (Returned END [(MsgOutsideExhausted, EmptyKeyboard)])], b')
    /\ conversations b' = delete (1001, 1001) (conversations awaiting_location)
    /\ user_data (stores b') = user_data (stores awaiting_location)
    /\ attendance_records (stores b') = attendance_records (stores awaiting_location)
    /\ attempt_counts (stores b')
       = <[1001 := 0]> (attempt_counts (stores awaiting_location)).
Proof.
  apply (X13_three_refused_locations_end_the_session awaiting_location
           (location_from alice (- center_latitude) (center_longitude + 180))
           (location_from alice (- center_latitude) (center_longitude + 180))
           (location_from alice (- center_latitude) (center_longitude + 180))
           102 103 104).
  - reflexivity.
  - vm_compute. eauto.
  - reflexivity.
  - reflexivity.
  - reflexivity.
  - exact antipode_is_invalid.
  - exact antipode_is_invalid.
  - exact antipode_is_invalid.
Defined.

Lemma X15_witness_alice_in_two_chats :
  conversations (process_update checkin_in_group 130 alice_in_two_chats).2
    !! (1001, 1001) = Some GET_LOCATION
  /\ attempt_counts (stores alice_in_two_chats) !! 1001 = Some 2
  /\ attempt_counts (stores (process_update checkin_in_group 130 alice_in_two_chats).2)
       !! 1001 = Some 0.
Proof.
  destruct (X15_checkin_elsewhere_resets_the_shared_counter
              alice_in_two_chats checkin_in_group 130 (1001, 1001) GET_LOCATION)
    as [H1 H2].
  - reflexivity.
  - reflexivity.
  - discriminate.
  - reflexivity.
  - reflexivity.
  - split; [exact H1|]. split; [reflexivity | exact H2].
Defined.

End FurtherScenarios.

(** * Where the sessions depart from the counting of failures *)

Section DroppedAndEdited.
Import Geofence Bot.
Local Open Scope string_scope.

(** While the location is awaited, a message without location that is not
    /cancel finds no handler. *)
Lemma process_update_without_location (upd : update) (now : timestamp) (b : bot) :
  conversations b !! conversation_key upd = Some GET_LOCATION ->
  location upd = None ->
  command upd <> Some "cancel" ->
  process_update upd now b = (None, b).
Proof.
  intros Hs Hl Hc.
  unfold process_update. cbv zeta. fold (conversation_key upd). rewrite Hs.
  assert (Hsel : select_handler (Some GET_LOCATION) upd = None).
  { unfold select_handler. rewrite states_lookup.
    rewrite decide_False by (unfold GET_LOCATION, CHECK_IN; lia).
    rewrite decide_True by reflexivity.
    unfold fallbacks. cbn [List.find check_update].
    unfold filters_LOCATION. rewrite Hl.
    destruct (command upd) as [c|]; [|reflexivity].
    rewrite decide_False by congruence. reflexivity. }
  rewrite Hsel. reflexivity.
Qed.

(** C2: in a session the failures without location are not counted.  While
    the location is awaited, messages without location (other than
    /cancel), however many, are dropped by the conversation: no reply, the
    conversation stays in GET_LOCATION, the counter and all the stores stay
    as they were, and the branch [get_location] has for them is never
    run. *)
Theorem C2_messages_without_location_are_not_counted
    (key : Z * Z) (evs : list (update * timestamp)) (b : bot) :
  conversations b !! key = Some GET_LOCATION ->
  Forall (fun ev => conversation_key ev.1 = key
                    /\ location ev.1 = None
                    /\ command ev.1 <> Some "cancel") evs ->
  run evs b = (replicate (length evs) None, b).
Proof.
  intros Hs Hall. induction evs as [|[upd now] evs IH]; [reflexivity|].
  apply Forall_cons in Hall as [(Hk & Hl & Hc) Hall]. cbn in Hk, Hl, Hc.
  cbn [run]. rewrite process_update_without_location; auto.
  - rewrite (IH Hall). reflexivity.
  - rewrite Hk. exact Hs.
Qed.

Lemma process_polled_new (upd : update) (now : timestamp) (b : bot) :
  process_polled (NewMessage upd) now b = process_update upd now b.
Proof. reflexivity. Qed.

(** C6: without conversation in progress every polled update that is not
    /start is dropped with the bot unchanged, but an edited message that
    reads /start is handed to [start], whose first statement raises
    [AttributeError]: nothing is registered, no reply is sent and no
    conversation is opened. *)
Theorem C6_edited_start_raises (p : polled) (now : timestamp) (b : bot) :
  conversations b !! conversation_key (effective p) = None ->
  (command (effective p) <> Some "start" -> process_polled p now b = (None, b))
  /\ (forall upd : update,
        p = EditedMessage upd ->
        command upd = Some "start" ->
        process_polled p now b = (Some (Raised AttributeError), b)).
Proof.
  intros Hnone. split.
  - intros Hc. unfold process_polled. cbv zeta.
    rewrite Hnone, select_handler_none, decide_False by exact Hc. reflexivity.
  - intros upd -> Hc. cbn in Hnone. unfold process_polled. cbv zeta. cbn [effective].
    rewrite Hnone, select_handler_none, decide_True by exact Hc.
    cbn. destruct b. reflexivity.
Qed.

End DroppedAndEdited.

Section DroppedAndEditedScenarios.
Import Geofence Bot Scenario.
Local Open Scope string_scope.

(** Scenario 3 of the specification, in a session: after /start and
    /checkin, three messages without location leave alice where she was. *)
Lemma C2_witness_three_texts_dropped :
  conversations awaiting_location !! (1001, 1001) = Some GET_LOCATION
  /\ attempt_counts (stores awaiting_location) !! 1001 = Some 0
  /\ run three_texts awaiting_location = ([None; None; None], awaiting_location).
Proof.
  split; [reflexivity|]. split; [reflexivity|].
  apply (C2_messages_without_location_are_not_counted
           (1001, 1001) three_texts awaiting_location).
  - reflexivity.
  - unfold three_texts. repeat constructor; discriminate.
Defined.

Lemma C6_witness_edited_start_from_bob :
  process_polled edited_start_from_bob 105 initial_bot
  = (Some (Raised AttributeError), initial_bot).
Proof.
  destruct (C6_edited_start_raises edited_start_from_bob 105 initial_bot)
    as [_ H].
  - reflexivity.
  - apply (H (command_from bob "start")); reflexivity.
Defined.

End DroppedAndEditedScenarios.
